(** * Manosaba AI project configuration script (modularflow_config.py)

    A shallow embedding of the configuration facade [ManosabaAIConfig] and of
    the command-line entry point of [modularflow_config.py], with the
    properties of its specification.

    Python values are embedded as follows: an [int] is a [Z]; a [str] is a
    [string] holding the UTF-8 bytes of the text; a [dict] literal is an
    association list in insertion order (the order [json.dumps] prints);
    [print], the child process and exceptions are threaded through a small
    state-and-exception monad. The standard streams are taken to accept any
    text and to pass it on as it is written (an interactive terminal, or an
    unbuffered interpreter), so that what the script prints and what the
    child process writes on the inherited streams appear in program order;
    the [subprocess], [argparse] and [json] modules of the standard library
    are modelled by what they do, on a POSIX system, for the calls the
    script makes. *)

From Stdlib Require Import ZArith NArith List String Ascii Bool Lia.
From Stdlib Require Import Decimal DecimalString DecimalZ.
Import ListNotations.

#[local] Open Scope string_scope.
#[local] Open Scope Z_scope.

(** ** Module-level constants (lines 11-23) *)

Record Constants : Type := mkConstants {
  FRONTEND_PORT : Z;
  BACKEND_PORT : Z;
  WEBSOCKET_PORT : Z;
  PROJECT_NAME : string;
  DISPLAY_NAME : string;
  PROJECT_TYPE : string;
  INSTALL_COMMAND : string;
  DEV_COMMAND : string;
  BUILD_COMMAND : string
}.

(** The values written in the file. *)
Definition default_constants : Constants := {|
  FRONTEND_PORT := 3002;
  BACKEND_PORT := 8000;
  WEBSOCKET_PORT := 8000;
  PROJECT_NAME := "manosaba_ai";
  DISPLAY_NAME := "Manosaba AI";
  PROJECT_TYPE := "nextjs";
  INSTALL_COMMAND := "pnpm install";
  DEV_COMMAND := "pnpm run dev";
  BUILD_COMMAND := "pnpm run build"
|}.

Definition set_BACKEND_PORT (p : Z) (c : Constants) : Constants :=
  mkConstants (FRONTEND_PORT c) p (WEBSOCKET_PORT c) (PROJECT_NAME c)
    (DISPLAY_NAME c) (PROJECT_TYPE c) (INSTALL_COMMAND c) (DEV_COMMAND c)
    (BUILD_COMMAND c).

Definition set_FRONTEND_PORT (p : Z) (c : Constants) : Constants :=
  mkConstants p (BACKEND_PORT c) (WEBSOCKET_PORT c) (PROJECT_NAME c)
    (DISPLAY_NAME c) (PROJECT_TYPE c) (INSTALL_COMMAND c) (DEV_COMMAND c)
    (BUILD_COMMAND c).

Definition set_WEBSOCKET_PORT (p : Z) (c : Constants) : Constants :=
  mkConstants (FRONTEND_PORT c) (BACKEND_PORT c) p (PROJECT_NAME c)
    (DISPLAY_NAME c) (PROJECT_TYPE c) (INSTALL_COMMAND c) (DEV_COMMAND c)
    (BUILD_COMMAND c).

(** ** Python values *)

#[local] Set Warnings "-register-all".

Inductive pyval : Type :=
| PyNone
| PyBool (b : bool)
| PyInt (z : Z)
| PyStr (s : string)
| PyList (l : list pyval)
| PyDict (d : list (string * pyval)).

(** [d[k]] on a dict literal: the value stored under [k], if any. *)
Fixpoint dict_get (k : string) (d : list (string * pyval)) : option pyval :=
  match d with
  | [] => None
  | (k', v) :: d' => if String.eqb k k' then Some v else dict_get k d'
  end.

Definition getitem (v : pyval) (k : string) : option pyval :=
  match v with
  | PyDict d => dict_get k d
  | _ => None
  end.

Definition dict_keys (v : pyval) : list string :=
  match v with
  | PyDict d => map fst d
  | _ => []
  end.

(** [str(n)] for an [int], as an f-string replacement field [{n}] renders it:
    decimal digits, a leading minus sign for negative numbers. (The limit
    some interpreters put on the number of digits of such a conversion is
    left out.) *)
Definition str_int (n : Z) : string := NilZero.string_of_int (Z.to_int n).

(** ** The facade's getters (lines 37-85) *)

Section Getters.

Variable c : Constants.

Definition get_project_info : pyval :=
  PyDict [
    ("name", PyStr (PROJECT_NAME c));
    ("display_name", PyStr (DISPLAY_NAME c));
    ("version", PyStr "1.0.0");
    ("description", PyStr "基于Next.js的AI智能助手应用");
    ("type", PyStr (PROJECT_TYPE c));
    ("author", PyStr "Manosaba Team");
    ("license", PyStr "MIT")
  ].

Definition get_runtime_config : pyval :=
  PyDict [
    ("port", PyInt (FRONTEND_PORT c));
    ("install_command", PyStr (INSTALL_COMMAND c));
    ("dev_command", PyStr (DEV_COMMAND c));
    ("build_command", PyStr (BUILD_COMMAND c));
    ("test_command", PyStr "pnpm test");
    ("lint_command", PyStr "pnpm run lint")
  ].

Definition get_dependencies : pyval :=
  PyDict [
    ("required_tools", PyList [PyStr "node"; PyStr "pnpm"]);
    ("optional_tools", PyList [PyStr "yarn"; PyStr "npm"]);
    ("node_version", PyStr ">=18.0.0");
    ("pnpm_version", PyStr ">=8.0.0")
  ].

Definition get_api_config : pyval :=
  PyDict [
    ("api_endpoint",
      PyStr ("http://localhost:" ++ str_int (BACKEND_PORT c) ++ "/api/v1"));
    ("websocket_url",
      PyStr ("ws://localhost:" ++ str_int (WEBSOCKET_PORT c) ++ "/ws"));
    ("cors_origins",
      PyList [PyStr ("http://localhost:" ++ str_int (FRONTEND_PORT c))])
  ].

Definition get_env_config : pyval :=
  PyDict [
    ("development", PyDict [
      ("NODE_ENV", PyStr "development");
      ("NEXT_PUBLIC_API_URL",
        PyStr ("http://localhost:" ++ str_int (BACKEND_PORT c)));
      ("NEXT_PUBLIC_WS_URL",
        PyStr ("ws://localhost:" ++ str_int (WEBSOCKET_PORT c) ++ "/ws"))
    ]);
    ("production", PyDict [
      ("NODE_ENV", PyStr "production");
      ("NEXT_PUBLIC_API_URL", PyStr "https://api.manosaba.com");
      ("NEXT_PUBLIC_WS_URL", PyStr "wss://api.manosaba.com/ws")
    ])
  ].

End Getters.

(** ** [json.dumps(obj, indent=2, ensure_ascii=False)]

    The encoder of Python's standard [json] module, restricted to the values
    of [pyval]: [None], [bool], [int], [str], [list] and [dict] with [str]
    keys. With [ensure_ascii=False] only the quotation mark, the backslash
    and the control characters below U+0020 are escaped; every other
    character, ASCII or not, is copied. *)

Definition dquote : ascii := ascii_of_nat 34.
Definition backslash : ascii := ascii_of_nat 92.
Definition newline : ascii := ascii_of_nat 10.

Definition hex_digit (n : nat) : ascii :=
  nth n (list_ascii_of_string "0123456789abcdef") "0"%char.

Definition escape_char (a : ascii) : string :=
  let n := nat_of_ascii a in
  if (n =? 34)%nat then String backslash (String dquote "")
  else if (n =? 92)%nat then String backslash (String backslash "")
  else if (n =? 10)%nat then String backslash "n"
  else if (n =? 13)%nat then String backslash "r"
  else if (n =? 9)%nat then String backslash "t"
  else if (n =? 8)%nat then String backslash "b"
  else if (n =? 12)%nat then String backslash "f"
  else if (n <? 32)%nat then
    String backslash
      (String "u" (String "0" (String "0"
        (String (hex_digit (n / 16)) (String (hex_digit (n mod 16)) "")))))
  else String a "".

Fixpoint escape (s : string) : string :=
  match s with
  | EmptyString => ""
  | String a s' => escape_char a ++ escape s'
  end.

Definition encode_basestring (s : string) : string :=
  String dquote (escape s ++ String dquote "").

Fixpoint spaces (n : nat) : string :=
  match n with
  | O => ""
  | S n' => String " " (spaces n')
  end.

Definition newline_indent (indent level : nat) : string :=
  String newline (spaces (indent * level)).

Fixpoint iterencode (indent level : nat) (o : pyval) : string :=
  match o with
  | PyNone => "null"
  | PyBool true => "true"
  | PyBool false => "false"
  | PyInt z => str_int z
  | PyStr s => encode_basestring s
  | PyList [] => "[]"
  | PyList (x :: xs) =>
      "[" ++ newline_indent indent (S level)
          ++ iterencode indent (S level) x
          ++ (fix items (l : list pyval) : string :=
                match l with
                | [] => ""
                | y :: ys =>
                    "," ++ newline_indent indent (S level)
                        ++ iterencode indent (S level) y ++ items ys
                end) xs
          ++ newline_indent indent level ++ "]"
  | PyDict [] => "{}"
  | PyDict ((k, x) :: kxs) =>
      "{" ++ newline_indent indent (S level)
          ++ encode_basestring k ++ ": " ++ iterencode indent (S level) x
          ++ (fix items (l : list (string * pyval)) : string :=
                match l with
                | [] => ""
                | (k', y) :: ys =>
                    "," ++ newline_indent indent (S level)
                        ++ encode_basestring k' ++ ": "
                        ++ iterencode indent (S level) y ++ items ys
                end) kxs
          ++ newline_indent indent level ++ "}"
  end.

Definition json_dumps (indent : nat) (o : pyval) : string :=
  iterencode indent 0 o.

(** ** Effects: module globals, standard streams, exceptions *)

(** Why a child process could not be started ([OSError] and its
    subclasses, raised by [subprocess.run] before any exit status exists). *)
Inductive launch_error : Type :=
| FileNotFoundError
| PermissionError
| OtherOSError.

(** What becomes of the child process. *)
Inductive proc_outcome : Type :=
| Exited (returncode : Z)
| NotLaunched (e : launch_error).

Inductive exn : Type :=
| CalledProcessError (returncode : Z) (cmd : list string)
| OSError (e : launch_error)
| IndexError
| ValueError
| KeyError (key : string)
| SystemExit (code : Z).

(** [os.getcwd()]: the working directory, or the [OSError] raised when it
    cannot be determined (a directory removed since, for one). *)
Inductive getcwd_result : Type :=
| Cwd (path : string)
| NoCwd (e : launch_error).

(** The collaborators outside the script: the process launcher, what the
    child process writes on the standard output and the standard error it
    inherits, the working directory, the text the [subprocess] and
    [argparse] modules and the interpreter produce. *)
Record Platform : Type := {
  spawn : list string -> string -> proc_outcome;
  child_stdout : list string -> string -> string;
  child_stderr : list string -> string -> string;
  getcwd : getcwd_result;
  str_CalledProcessError : Z -> list string -> string;
  repr_container : pyval -> string;
  prog : string;
  format_help : string;
  format_usage : string;
  format_traceback : exn -> string
}.

Record state : Type := mkState {
  globals : Constants;
  stdout : string;
  stderr : string
}.

Definition initial_state (c : Constants) : state := mkState c "" "".

Inductive outcome (A : Type) : Type :=
| Returned (a : A)
| Raised (e : exn).
Arguments Returned {A} a.
Arguments Raised {A} e.

Definition M (A : Type) : Type := state -> outcome A * state.

Definition ret {A} (a : A) : M A := fun st => (Returned a, st).

Definition bind {A B} (m : M A) (k : A -> M B) : M B :=
  fun st =>
    match m st with
    | (Returned a, st') => k a st'
    | (Raised e, st') => (Raised e, st')
    end.

Definition raise {A} (e : exn) : M A := fun st => (Raised e, st).

Declare Scope py_scope.
Delimit Scope py_scope with py.
Notation "x <- m ;; k" := (bind m (fun x => k))
  (at level 61, m at next level, right associativity) : py_scope.
Notation "m ;; k" := (bind m (fun _ => k))
  (at level 61, right associativity) : py_scope.
#[local] Open Scope py_scope.

(** [try: body except <clause>: handler]. The clause is a partial function:
    [None] on the exceptions it does not name, which keep propagating. *)
Definition try_except {A} (body : M A) (clause : exn -> option (M A)) : M A :=
  fun st =>
    match body st with
    | (Returned a, st') => (Returned a, st')
    | (Raised e, st') =>
        match clause e with
        | Some handler => handler st'
        | None => (Raised e, st')
        end
    end.

Definition read_globals : M Constants := fun st => (Returned (globals st), st).

Definition write_stdout (text : string) : M unit :=
  fun st => (Returned tt, mkState (globals st) (stdout st ++ text) (stderr st)).

Definition write_stderr (text : string) : M unit :=
  fun st => (Returned tt, mkState (globals st) (stdout st) (stderr st ++ text)).

(** [print(text)]: the text and a line feed on standard output. *)
Definition print (text : string) : M unit :=
  write_stdout (text ++ String newline "").

(** [s.split()]: the maximal runs of non-whitespace characters of [s].
    White space is what [str.isspace] accepts: U+0009 to U+000D, U+001C to
    U+0020, U+0085, U+00A0, U+1680, U+2000 to U+200A, U+2028, U+2029,
    U+202F, U+205F and U+3000, recognised here by their UTF-8 bytes. *)
Definition ascii_space (a : ascii) : bool :=
  let n := nat_of_ascii a in
  ((9 <=? n) && (n <=? 13) || (28 <=? n) && (n <=? 32))%nat.

(** U+0085 and U+00A0: bytes C2 85 and C2 A0. *)
Definition space2 (a b : ascii) : bool :=
  let m := nat_of_ascii a in
  let n := nat_of_ascii b in
  ((m =? 194) && ((n =? 133) || (n =? 160)))%nat.

(** U+1680 (E1 9A 80); U+2000 to U+200A, U+2028, U+2029, U+202F (E2 80 80
    to 8A, A8, A9, AF); U+205F (E2 81 9F); U+3000 (E3 80 80). *)
Definition space3 (a b c : ascii) : bool :=
  let l := nat_of_ascii a in
  let m := nat_of_ascii b in
  let n := nat_of_ascii c in
  ((l =? 225) && (m =? 154) && (n =? 128)
   || (l =? 226) && (m =? 128)
      && ((128 <=? n) && (n <=? 138) || (n =? 168) || (n =? 169)
          || (n =? 175))
   || (l =? 226) && (m =? 129) && (n =? 159)
   || (l =? 227) && (m =? 128) && (n =? 128))%nat.

(** The word collected so far, if there is one, is complete. *)
Definition flush (cur : option string) : list string :=
  match cur with
  | Some w => [w]
  | None => []
  end.

(** The word collected so far, with one more byte. *)
Definition push (cur : option string) (a : ascii) : option string :=
  Some (match cur with
        | Some w => w ++ String a ""
        | None => String a ""
        end).

(** The scan of [s], with the word [cur] under way. *)
Fixpoint split_from (cur : option string) (s : string) : list string :=
  match s with
  | EmptyString => flush cur
  | String a s1 =>
      if ascii_space a then (flush cur ++ split_from None s1)%list
      else
        match s1 with
        | EmptyString => split_from (push cur a) s1
        | String b s2 =>
            if space2 a b then (flush cur ++ split_from None s2)%list
            else
              match s2 with
              | EmptyString => split_from (push cur a) s1
              | String c s3 =>
                  if space3 a b c
                  then (flush cur ++ split_from None s3)%list
                  else split_from (push cur a) s1
              end
        end
  end.

Definition split (s : string) : list string := split_from None s.

(** The string holds a NUL character. *)
Fixpoint has_nul (s : string) : bool :=
  match s with
  | EmptyString => false
  | String a s' => (nat_of_ascii a =? 0)%nat || has_nul s'
  end.

(** [os.getcwd()] *)
Definition os_getcwd (P : Platform) : M string :=
  match getcwd P with
  | Cwd path => ret path
  | NoCwd e => raise (OSError e)
  end.

(** [subprocess.run(args, cwd=cwd, check=check)], returning the exit status
    of the completed process. An empty argument list has no executable to
    name ([IndexError]); a NUL character in an argument or in the directory
    is refused ([ValueError]); a child that cannot be started is an
    [OSError]. A child that runs writes on the standard output and the
    standard error it inherits, and with [check] an exit status other than
    zero is a [CalledProcessError]. *)
Definition subprocess_run (P : Platform) (args : list string) (cwd : string)
    (check : bool) : M Z :=
  match args with
  | [] => raise IndexError
  | _ :: _ =>
      if existsb has_nul (cwd :: args) then raise ValueError
      else
        match spawn P args cwd with
        | NotLaunched e => raise (OSError e)
        | Exited rc =>
            write_stdout (child_stdout P args cwd) ;;
            write_stderr (child_stderr P args cwd) ;;
            if check && negb (rc =? 0)
            then raise (CalledProcessError rc args)
            else ret rc
        end
  end.

(** ** [ManosabaAIConfig.install] (lines 87-96) *)

Definition install (P : Platform) : M bool :=
  c <- read_globals ;;
  print ("🚀 安装 " ++ DISPLAY_NAME c ++ "...") ;;
  try_except
    (cwd <- os_getcwd P ;;
     subprocess_run P (split (INSTALL_COMMAND c)) cwd true ;;
     print "✅ 安装完成" ;;
     ret true)
    (fun e =>
       match e with
       | CalledProcessError rc cmd =>
           Some (print ("❌ 安装失败: " ++ str_CalledProcessError P rc cmd) ;;
                 ret false)
       | _ => None
       end).

(** ** The facade as a set of methods

    The getters as the interpreter runs them. Building a dict or a list and
    reading a module constant cannot fail; rendering an [int] in an f-string
    can: an interpreter with a limit on integer-to-string conversion
    ([sys.get_int_max_str_digits()], 4300 by default, 0 for none) raises
    [ValueError] for an integer with more digits than the limit. *)

Inductive method : Type :=
| m_get_project_info
| m_get_runtime_config
| m_get_dependencies
| m_get_api_config
| m_get_env_config
| m_install.

(** The number of decimal digits of [n], its sign apart. *)
Definition ndigits (n : Z) : nat := String.length (str_int (Z.abs n)).

(** The conversion of [n] is refused under the limit [max_str_digits] (an
    interpreter takes 0, for no limit, or a limit of at least 640). *)
Definition exceeds (max_str_digits : nat) (n : Z) : bool :=
  ((0 <? max_str_digits) && (max_str_digits <? ndigits n))%nat.

Section Methods.

(** The interpreter's limit, 0 when it has none. *)
Variable max_str_digits : nat.

(** A replacement field [{n}] for an [int]. *)
Definition fstring_int (n : Z) : M string :=
  if exceeds max_str_digits n then raise ValueError else ret (str_int n).

Definition project_info_method : M pyval :=
  c <- read_globals ;; ret (get_project_info c).

Definition runtime_config_method : M pyval :=
  c <- read_globals ;; ret (get_runtime_config c).

Definition dependencies_method : M pyval := ret get_dependencies.

Definition api_config_method : M pyval :=
  c <- read_globals ;;
  backend <- fstring_int (BACKEND_PORT c) ;;
  websocket <- fstring_int (WEBSOCKET_PORT c) ;;
  frontend <- fstring_int (FRONTEND_PORT c) ;;
  ret (PyDict [
    ("api_endpoint", PyStr ("http://localhost:" ++ backend ++ "/api/v1"));
    ("websocket_url", PyStr ("ws://localhost:" ++ websocket ++ "/ws"));
    ("cors_origins", PyList [PyStr ("http://localhost:" ++ frontend)]) ]).

Definition env_config_method : M pyval :=
  c <- read_globals ;;
  backend <- fstring_int (BACKEND_PORT c) ;;
  websocket <- fstring_int (WEBSOCKET_PORT c) ;;
  ret (PyDict [
    ("development", PyDict [
      ("NODE_ENV", PyStr "development");
      ("NEXT_PUBLIC_API_URL", PyStr ("http://localhost:" ++ backend));
      ("NEXT_PUBLIC_WS_URL", PyStr ("ws://localhost:" ++ websocket ++ "/ws"))
    ]);
    ("production", PyDict [
      ("NODE_ENV", PyStr "production");
      ("NEXT_PUBLIC_API_URL", PyStr "https://api.manosaba.com");
      ("NEXT_PUBLIC_WS_URL", PyStr "wss://api.manosaba.com/ws")
    ]) ]).

(** A method called on an interpreter with the limit [max_str_digits]. *)
Definition invoke (P : Platform) (m : method) : M pyval :=
  match m with
  | m_get_project_info => project_info_method
  | m_get_runtime_config => runtime_config_method
  | m_get_dependencies => dependencies_method
  | m_get_api_config => api_config_method
  | m_get_env_config => env_config_method
  | m_install => b <- install P ;; ret (PyBool b)
  end.

End Methods.

(** A method called on an interpreter without the limit: every integer is
    rendered, and a getter returns the dict of the function of its name
    above. *)
Definition call (P : Platform) (m : method) : M pyval := invoke 0 P m.

Definition is_getter (m : method) : bool :=
  match m with
  | m_install => false
  | _ => true
  end.

(** ** The command-line parser (lines 103-108)

    [argparse.ArgumentParser] with the three [store_true] options of the
    script and the [-h]/[--help] option it adds itself. The model covers the
    command lines made of: an option string written in full; an argument
    that does not start with a dash (a positional argument, which this
    parser does not declare); a double-dash argument without an equals sign
    that is no prefix of a declared long option (an unknown option).
    Abbreviated options, [--opt=value] forms, single-dash clusters and the
    bare [--] are left out: [parse_args] is [None] on them. *)

Module Args.
Record t : Type := mk { get_config : bool; install : bool; info : bool }.
End Args.

Inductive dest : Type := d_get_config | d_install | d_info.

Inductive action : Type :=
| HelpAction
| StoreTrue (d : dest).

Definition option_string_actions : list (string * action) :=
  [ ("-h", HelpAction);
    ("--help", HelpAction);
    ("--get-config", StoreTrue d_get_config);
    ("--install", StoreTrue d_install);
    ("--info", StoreTrue d_info) ].

Fixpoint assoc {A} (k : string) (l : list (string * A)) : option A :=
  match l with
  | [] => None
  | (k', a) :: l' => if String.eqb k k' then Some a else assoc k l'
  end.

Fixpoint mem_char (a : ascii) (s : string) : bool :=
  match s with
  | EmptyString => false
  | String b s' => Ascii.eqb a b || mem_char a s'
  end.

Inductive arg_kind : Type :=
| Opt (a : action)
| Extra.

Definition parse_optional (arg : string) : option arg_kind :=
  match assoc arg option_string_actions with
  | Some a => Some (Opt a)
  | None =>
      if negb (String.prefix "-" arg) then Some Extra
      else if String.prefix "--" arg
              && negb (mem_char "=" arg)
              && negb (existsb (fun o => String.prefix arg (fst o))
                         option_string_actions)
      then Some Extra
      else None
  end.

Fixpoint classify (argv : list string) : option (list (string * arg_kind)) :=
  match argv with
  | [] => Some []
  | arg :: argv' =>
      match parse_optional arg, classify argv' with
      | Some k, Some ks => Some ((arg, k) :: ks)
      | _, _ => None
      end
  end.

Definition set_true (d : dest) (ns : Args.t) : Args.t :=
  match d with
  | d_get_config => Args.mk true (Args.install ns) (Args.info ns)
  | d_install => Args.mk (Args.get_config ns) true (Args.info ns)
  | d_info => Args.mk (Args.get_config ns) (Args.install ns) true
  end.

Inductive parse_result : Type :=
| Parsed (ns : Args.t)
| HelpRequested
| Unrecognized (extras : list string).

(** Arguments are consumed left to right; the help action ends the program
    where it stands, unknown arguments are collected and reported at the
    end. *)
Fixpoint consume (ns : Args.t) (extras : list string)
    (l : list (string * arg_kind)) : parse_result :=
  match l with
  | [] =>
      match extras with
      | [] => Parsed ns
      | _ => Unrecognized extras
      end
  | (_, Opt HelpAction) :: _ => HelpRequested
  | (_, Opt (StoreTrue d)) :: l' => consume (set_true d ns) extras l'
  | (arg, Extra) :: l' => consume ns (extras ++ [arg]) l'
  end.

Definition scan (argv : list string) : option parse_result :=
  option_map (consume (Args.mk false false false) []) (classify argv).

Fixpoint join (sep : string) (l : list string) : string :=
  match l with
  | [] => ""
  | [x] => x
  | x :: l' => x ++ sep ++ join sep l'
  end.

(** [parser.print_help()] *)
Definition print_help (P : Platform) : M unit := write_stdout (format_help P).

(** [parser.error(message)]: usage and message on standard error, exit
    status 2. *)
Definition parser_error {A} (P : Platform) (message : string) : M A :=
  write_stderr (format_usage P) ;;
  write_stderr (prog P ++ ": error: " ++ message ++ String newline "") ;;
  raise (SystemExit 2).

Definition parse_args (P : Platform) (argv : list string)
    : option (M Args.t) :=
  option_map
    (fun r =>
       match r with
       | Parsed ns => ret ns
       | HelpRequested => print_help P ;; raise (SystemExit 0)
       | Unrecognized extras =>
           parser_error P ("unrecognized arguments: " ++ join " " extras)
       end)
    (scan argv).

(** ** The entry point (lines 109-127)

    The script is run on an interpreter without limit on integer-to-string
    conversion ([call]); [invoke] gives the methods under such a limit. *)

Definition subscript (o : pyval) (k : string) : M pyval :=
  match getitem o k with
  | Some v => ret v
  | None => raise (KeyError k)
  end.

(** An f-string replacement field [{v}]. *)
Definition format (P : Platform) (v : pyval) : string :=
  match v with
  | PyNone => "None"
  | PyBool true => "True"
  | PyBool false => "False"
  | PyInt z => str_int z
  | PyStr s => s
  | _ => repr_container P v
  end.

Definition dispatch (P : Platform) (args : Args.t) : M unit :=
  if Args.get_config args then
    project <- call P m_get_project_info ;;
    runtime <- call P m_get_runtime_config ;;
    dependencies <- call P m_get_dependencies ;;
    api <- call P m_get_api_config ;;
    environment <- call P m_get_env_config ;;
    print (json_dumps 2 (PyDict [
      ("project", project);
      ("runtime", runtime);
      ("dependencies", dependencies);
      ("api", api);
      ("environment", environment) ]))
  else if Args.install args then
    install P ;; ret tt
  else if Args.info args then
    info <- call P m_get_project_info ;;
    display_name <- subscript info "display_name" ;;
    name <- subscript info "name" ;;
    print ("项目: " ++ format P display_name ++ " (" ++ format P name ++ ")") ;;
    type <- subscript info "type" ;;
    print ("类型: " ++ format P type) ;;
    c <- read_globals ;;
    print ("端口: " ++ str_int (FRONTEND_PORT c))
  else
    print_help P.

Definition main (P : Platform) (argv : list string) : option (M unit) :=
  option_map (fun parse => args <- parse ;; dispatch P args)
    (parse_args P argv).

(** What the operating system sees of one run of the script. *)
Record completed : Type := mkCompleted {
  output : string;
  errors : string;
  exit_status : Z
}.

Definition finish (P : Platform) (r : outcome unit * state) : completed :=
  match r with
  | (Returned _, st) => mkCompleted (stdout st) (stderr st) 0
  | (Raised (SystemExit code), st) => mkCompleted (stdout st) (stderr st) code
  | (Raised e, st) =>
      mkCompleted (stdout st) (stderr st ++ format_traceback P e) 1
  end.

Definition run_script (P : Platform) (c : Constants) (argv : list string)
    : option completed :=
  option_map (fun m => finish P (m (initial_state c))) (main P argv).

(** ** Reading JSON text back

    A reader for the JSON texts whose values are [null], [true], [false],
    integers, strings, arrays and objects; it is what "parseable" means
    below. It accepts a subset of JSON: numbers with a fraction or an
    exponent, integers not in canonical form and escapes naming a surrogate
    are refused. *)

Definition is_ws (a : ascii) : bool :=
  let n := nat_of_ascii a in
  ((n =? 32) || (n =? 10) || (n =? 13) || (n =? 9))%nat.

Fixpoint skip_ws (s : string) : string :=
  match s with
  | EmptyString => ""
  | String a s' => if is_ws a then skip_ws s' else s
  end.

Definition is_digit (a : ascii) : bool :=
  let n := nat_of_ascii a in ((48 <=? n) && (n <=? 57))%nat.

Fixpoint span_digits (s : string) : string * string :=
  match s with
  | EmptyString => ("", "")
  | String a s' =>
      if is_digit a then
        let (ds, r) := span_digits s' in (String a ds, r)
      else ("", s)
  end.

Definition hex_value (a : ascii) : option N :=
  let n := N_of_ascii a in
  (if (48 <=? n) && (n <=? 57) then Some (n - 48)
   else if (97 <=? n) && (n <=? 102) then Some (n - 87)
   else if (65 <=? n) && (n <=? 70) then Some (n - 55)
   else None)%N.

Definition hex4 (h1 h2 h3 h4 : ascii) : option N :=
  match hex_value h1, hex_value h2, hex_value h3, hex_value h4 with
  | Some a, Some b, Some c, Some d =>
      Some (((a * 16 + b) * 16 + c) * 16 + d)%N
  | _, _, _, _ => None
  end.

(** UTF-8 for a code point of the Basic Multilingual Plane. *)
Definition utf8_encode (cp : N) : option string :=
  (if cp <? 128 then Some (String (ascii_of_N cp) "")
   else if cp <? 2048 then
     Some (String (ascii_of_N (192 + cp / 64))
            (String (ascii_of_N (128 + cp mod 64)) ""))
   else if (55296 <=? cp) && (cp <=? 57343) then None
   else
     Some (String (ascii_of_N (224 + cp / 4096))
            (String (ascii_of_N (128 + (cp / 64) mod 64))
              (String (ascii_of_N (128 + cp mod 64)) ""))))%N.

Definition unescape (e : ascii) : option ascii :=
  let n := nat_of_ascii e in
  if (n =? 34)%nat then Some dquote
  else if (n =? 92)%nat then Some backslash
  else if (n =? 47)%nat then Some "/"%char
  else if (n =? 98)%nat then Some (ascii_of_nat 8)
  else if (n =? 102)%nat then Some (ascii_of_nat 12)
  else if (n =? 110)%nat then Some newline
  else if (n =? 114)%nat then Some (ascii_of_nat 13)
  else if (n =? 116)%nat then Some (ascii_of_nat 9)
  else None.

Definition prepend (t : string) (r : option (string * string))
    : option (string * string) :=
  match r with
  | Some (t', rest) => Some (t ++ t', rest)
  | None => None
  end.

(** The characters of a string, the opening quotation mark already read. *)
Fixpoint parse_chars (s : string) : option (string * string) :=
  match s with
  | EmptyString => None
  | String a s' =>
      if Ascii.eqb a dquote then Some ("", s')
      else if Ascii.eqb a backslash then
        match s' with
        | EmptyString => None
        | String e s'' =>
            if Ascii.eqb e "u" then
              match s'' with
              | String h1 (String h2 (String h3 (String h4 r))) =>
                  match hex4 h1 h2 h3 h4 with
                  | Some cp =>
                      match utf8_encode cp with
                      | Some t => prepend t (parse_chars r)
                      | None => None
                      end
                  | None => None
                  end
              | _ => None
              end
            else
              match unescape e with
              | Some ch => prepend (String ch "") (parse_chars s'')
              | None => None
              end
        end
      else if (nat_of_ascii a <? 32)%nat then None
      else prepend (String a "") (parse_chars s')
  end.

Definition starts_float_tail (s : string) : bool :=
  match s with
  | EmptyString => false
  | String a _ => Ascii.eqb a "." || Ascii.eqb a "e" || Ascii.eqb a "E"
  end.

Definition parse_number (s : string) : option (pyval * string) :=
  let (sign, s1) :=
    match s with
    | String a s' => if Ascii.eqb a "-" then ("-", s') else ("", s)
    | EmptyString => ("", s)
    end in
  let (ds, r) := span_digits s1 in
  if starts_float_tail r then None
  else
    match NilZero.int_of_string (sign ++ ds) with
    | Some d =>
        let z := Z.of_int d in
        if String.eqb (str_int z) (sign ++ ds) then Some (PyInt z, r)
        else None
    | None => None
    end.

(** [s] without its prefix [lit], when it has that prefix. *)
Fixpoint strip_prefix (lit s : string) : option string :=
  match lit with
  | EmptyString => Some s
  | String a lit' =>
      match s with
      | String b s' => if Ascii.eqb a b then strip_prefix lit' s' else None
      | EmptyString => None
      end
  end.

Definition expect (lit : string) (v : pyval) (s : string)
    : option (pyval * string) :=
  match strip_prefix lit s with
  | Some r => Some (v, r)
  | None => None
  end.

Definition next_is (a : ascii) (s : string) : option string :=
  match s with
  | String b r => if Ascii.eqb a b then Some r else None
  | EmptyString => None
  end.

Section Steps.

(** The readers for the parts of a value, one nesting level down. *)
Variable value : string -> option (pyval * string).
Variable elements : string -> option (list pyval * string).
Variable members : string -> option (list (string * pyval) * string).

Definition value_step (s : string) : option (pyval * string) :=
  match skip_ws s with
  | EmptyString => None
  | String a r =>
      if Ascii.eqb a dquote then
        match parse_chars r with
        | Some (t, r') => Some (PyStr t, r')
        | None => None
        end
      else if Ascii.eqb a "[" then
        match next_is "]" (skip_ws r) with
        | Some r' => Some (PyList [], r')
        | None =>
            match elements r with
            | Some (l, r') => Some (PyList l, r')
            | None => None
            end
        end
      else if Ascii.eqb a "{" then
        match next_is "}" (skip_ws r) with
        | Some r' => Some (PyDict [], r')
        | None =>
            match members r with
            | Some (d, r') => Some (PyDict d, r')
            | None => None
            end
        end
      else if Ascii.eqb a "n" then expect "null" PyNone (String a r)
      else if Ascii.eqb a "t" then expect "true" (PyBool true) (String a r)
      else if Ascii.eqb a "f" then expect "false" (PyBool false) (String a r)
      else parse_number (String a r)
  end.

(** One element, then a comma and more elements or the closing bracket. *)
Definition elements_step (s : string) : option (list pyval * string) :=
  match value s with
  | Some (v, r) =>
      match skip_ws r with
      | String a r' =>
          if Ascii.eqb a "," then
            match elements r' with
            | Some (l, r'') => Some (v :: l, r'')
            | None => None
            end
          else if Ascii.eqb a "]" then Some ([v], r')
          else None
      | EmptyString => None
      end
  | None => None
  end.

(** One [key: value] member, then a comma and more members or the closing
    brace. *)
Definition members_step (s : string)
    : option (list (string * pyval) * string) :=
  match next_is dquote (skip_ws s) with
  | Some r0 =>
      match parse_chars r0 with
      | Some (k, r1) =>
          match next_is ":" (skip_ws r1) with
          | Some r2 =>
              match value r2 with
              | Some (v, r) =>
                  match skip_ws r with
                  | String a r' =>
                      if Ascii.eqb a "," then
                        match members r' with
                        | Some (d, r'') => Some ((k, v) :: d, r'')
                        | None => None
                        end
                      else if Ascii.eqb a "}" then Some ([(k, v)], r')
                      else None
                  | EmptyString => None
                  end
              | None => None
              end
          | None => None
          end
      | None => None
      end
  | None => None
  end.

End Steps.

(** The fuel bounds the number of nested reader calls. *)
Fixpoint parse_value (fuel : nat) (s : string) : option (pyval * string) :=
  match fuel with
  | O => None
  | S fuel' => value_step (parse_elements fuel') (parse_members fuel') s
  end

with parse_elements (fuel : nat) (s : string)
    : option (list pyval * string) :=
  match fuel with
  | O => None
  | S fuel' => elements_step (parse_value fuel') (parse_elements fuel') s
  end

with parse_members (fuel : nat) (s : string)
    : option (list (string * pyval) * string) :=
  match fuel with
  | O => None
  | S fuel' => members_step (parse_value fuel') (parse_members fuel') s
  end.

(** [json.loads(text)]: one value, then only white space. *)
Definition json_loads (text : string) : option pyval :=
  match parse_value (S (String.length text)) text with
  | Some (v, r) =>
      match skip_ws r with
      | EmptyString => Some v
      | String _ _ => None
      end
  | None => None
  end.

(** Nested subscript [o[k1][k2]]. *)
Definition getitem2 (o : pyval) (k1 k2 : string) : option pyval :=
  match getitem o k1 with
  | Some d => getitem d k2
  | None => None
  end.

(** [int(s)] for a decimal numeral. *)
Definition int_of_str (s : string) : option Z :=
  option_map Z.of_int (NilZero.int_of_string s).

(** ** Vocabulary of the properties *)


(** A platform whose child process always ends as [o], silently. *)
Definition stub_platform (o : proc_outcome) : Platform := {|
  spawn := fun _ _ => o;
  child_stdout := fun _ _ => "";
  child_stderr := fun _ _ => "";
  getcwd := Cwd "/srv/manosaba_ai";
  str_CalledProcessError := fun rc _ => "exit status " ++ str_int rc;
  repr_container := fun _ => "";
  prog := "modularflow_config.py";
  format_help := "usage: modularflow_config.py [-h] [--get-config] [--install] [--info]";
  format_usage := "usage: modularflow_config.py [-h] [--get-config] [--install] [--info]";
  format_traceback := fun _ => "Traceback"
|}.

(** The integers a getter renders in f-strings, in the order of the
    source. *)
Definition interpolated (m : method) (c : Constants) : list Z :=
  match m with
  | m_get_api_config => [BACKEND_PORT c; WEBSOCKET_PORT c; FRONTEND_PORT c]
  | m_get_env_config => [BACKEND_PORT c; WEBSOCKET_PORT c]
  | _ => []
  end.

(** Every integer of the list is rendered under the limit. *)
Definition rendered (max_str_digits : nat) (ints : list Z) : bool :=
  forallb (fun n => negb (exceeds max_str_digits n)) ints.

(** The three ports are rendered under the limit. *)
Definition ports_rendered (max_str_digits : nat) (c : Constants) : bool :=
  rendered max_str_digits [FRONTEND_PORT c; BACKEND_PORT c; WEBSOCKET_PORT c].

(** C4 as it is stated: on every interpreter a getter returns, whatever the
    constants are. *)
Definition getters_never_raise : Prop :=
  forall (max_str_digits : nat) (P : Platform) (m : method) (st : state),
    is_getter m = true ->
    exists v, invoke max_str_digits P m st = (Returned v, st).

(** A call fails when it raises or when it answers [False]. *)
Definition failed (r : outcome pyval * state) : bool :=
  match fst r with
  | Raised _ => true
  | Returned (PyBool false) => true
  | Returned _ => false
  end.

(** Two calls of one method in a row, each result serialized as the entry
    point does. *)
Definition call_twice (P : Platform) (m : method)
    : M ((pyval * string) * (pyval * string)) :=
  x <- call P m ;;
  y <- call P m ;;
  ret ((x, json_dumps 2 x), (y, json_dumps 2 y)).

(** The state after [print(text)]. *)
Definition say (text : string) (st : state) : state :=
  mkState (globals st) (stdout st ++ text ++ String newline "") (stderr st).

(** The option strings the script declares. *)
Definition flag_strings : list string := ["--get-config"; "--install"; "--info"].

(** The command line is made of the script's three flags only. *)
Definition only_flags (argv : list string) : bool :=
  forallb (fun a => existsb (String.eqb a) flag_strings) argv.

(** The flag [f] occurs on the command line. *)
Definition given (f : string) (argv : list string) : bool :=
  existsb (String.eqb f) argv.

(** The arguments the parser does not recognise, in order. *)
Definition extras_of (ks : list (string * arg_kind)) : list string :=
  map fst
    (filter (fun k => match snd k with Extra => true | Opt _ => false end) ks).

(** The help option occurs among the arguments. *)
Definition asks_help (ks : list (string * arg_kind)) : bool :=
  existsb (fun k => match snd k with Opt HelpAction => true | _ => false end)
    ks.

(** The five sections of the configuration document and the getters that
    fill them. *)
Definition document_sections : list (string * method) :=
  [ ("project", m_get_project_info);
    ("runtime", m_get_runtime_config);
    ("dependencies", m_get_dependencies);
    ("api", m_get_api_config);
    ("environment", m_get_env_config) ].

(** A printed line. *)
Definition line (text : string) : string := text ++ String newline "".

(** What [--get-config] serializes. *)
Definition config_document (c : Constants) : pyval :=
  PyDict [
    ("project", get_project_info c);
    ("runtime", get_runtime_config c);
    ("dependencies", get_dependencies);
    ("api", get_api_config c);
    ("environment", get_env_config c) ].

(** The reading of C8 that lets any command line without one of the three
    flags fall back to the help text, successfully. *)
Definition help_when_no_flag (P : Platform) (c : Constants)
    (argv : list string) : Prop :=
  given "--get-config" argv = false ->
  given "--install" argv = false ->
  given "--info" argv = false ->
  exists r, run_script P c argv = Some r
            /\ output r = format_help P /\ exit_status r = 0.

(** A character that may follow a number. *)
Definition number_end (s : string) : bool :=
  match s with
  | EmptyString => true
  | String a _ => negb (is_digit a) && negb (starts_float_tail s)
  end.

(** Decimal digits only. *)
Fixpoint all_digits (s : string) : bool :=
  match s with
  | EmptyString => true
  | String a s' => is_digit a && all_digits s'
  end.

(** The first character of a JSON value. *)
Definition value_start (a : ascii) : bool :=
  is_digit a || existsb (Ascii.eqb a)
                  [dquote; "["; "{"; "n"; "t"; "f"; "-"]%char.

(** The text of the elements of a list at [level], up to and including what
    closes the list. *)
Fixpoint elements_text (indent level : nat) (l : list pyval) (close : string)
    : string :=
  match l with
  | [] => close
  | x :: l' =>
      newline_indent indent level ++ iterencode indent level x
        ++ match l' with
           | [] => close
           | _ :: _ => "," ++ elements_text indent level l' close
           end
  end.

(** The same for the members of a dict. *)
Fixpoint members_text (indent level : nat) (d : list (string * pyval))
    (close : string) : string :=
  match d with
  | [] => close
  | (k, x) :: d' =>
      newline_indent indent level ++ encode_basestring k ++ ": "
        ++ iterencode indent level x
        ++ match d' with
           | [] => close
           | _ :: _ => "," ++ members_text indent level d' close
           end
  end.

(** Reader calls needed for a value. *)
Fixpoint weight (v : pyval) : nat :=
  match v with
  | PyList l =>
      S ((fix go (l : list pyval) : nat :=
            match l with
            | [] => O
            | x :: l' => S (weight x + go l')
            end) l)
  | PyDict d =>
      S ((fix go (d : list (string * pyval)) : nat :=
            match d with
            | [] => O
            | (_, x) :: d' => S (weight x + go d')
            end) d)
  | _ => 1%nat
  end.

(** Reader calls needed for the elements of a list, the members of a dict. *)
Fixpoint elements_weight (l : list pyval) : nat :=
  match l with
  | [] => O
  | x :: l' => S (weight x + elements_weight l')
  end.

Fixpoint members_weight (d : list (string * pyval)) : nat :=
  match d with
  | [] => O
  | (_, x) :: d' => S (weight x + members_weight d')
  end.

(** The continuation items of a list and of a dict, as [iterencode] writes
    them after the first. *)
Definition list_items (indent level : nat) : list pyval -> string :=
  fix items (l : list pyval) : string :=
    match l with
    | [] => ""
    | y :: ys =>
        "," ++ newline_indent indent level ++ iterencode indent level y
            ++ items ys
    end.

Definition dict_items (indent level : nat)
    : list (string * pyval) -> string :=
  fix items (d : list (string * pyval)) : string :=
    match d with
    | [] => ""
    | (k, y) :: ys =>
        "," ++ newline_indent indent level ++ encode_basestring k ++ ": "
            ++ iterencode indent level y ++ items ys
    end.

(** What the readers do, given [fuel], on the encoder's output. *)
Definition reads_values (fuel : nat) : Prop :=
  forall v indent level rest,
    (weight v <= fuel)%nat -> number_end rest = true ->
    parse_value fuel (iterencode indent level v ++ rest) = Some (v, rest).

Definition reads_elements (fuel : nat) : Prop :=
  forall x xs indent level level' rest,
    (elements_weight (x :: xs) <= fuel)%nat ->
    parse_elements fuel
      (elements_text indent level (x :: xs)
         (newline_indent indent level' ++ String "]" rest))
    = Some (x :: xs, rest).

Definition reads_members (fuel : nat) : Prop :=
  forall k x kxs indent level level' rest,
    (members_weight ((k, x) :: kxs) <= fuel)%nat ->
    parse_members fuel
      (members_text indent level ((k, x) :: kxs)
         (newline_indent indent level' ++ String "}" rest))
    = Some ((k, x) :: kxs, rest).

(** The weight of a value is at most the length of its text. *)
Definition short_values (n : nat) : Prop :=
  forall v indent level,
    (weight v <= n)%nat ->
    (weight v <= String.length (iterencode indent level v))%nat.

Definition short_elements (n : nat) : Prop :=
  forall l indent level,
    (elements_weight l <= n)%nat ->
    (elements_weight l <= String.length (list_items indent level l))%nat.

Definition short_members (n : nat) : Prop :=
  forall d indent level,
    (members_weight d <= n)%nat ->
    (members_weight d <= String.length (dict_items indent level d))%nat.

(** ** Vocabulary of the further properties *)

Definition set_INSTALL_COMMAND (cmd : string) (c : Constants) : Constants :=
  mkConstants (FRONTEND_PORT c) (BACKEND_PORT c) (WEBSOCKET_PORT c)
    (PROJECT_NAME c) (DISPLAY_NAME c) (PROJECT_TYPE c) cmd (DEV_COMMAND c)
    (BUILD_COMMAND c).

(** The state whose constants are [c], the streams as in [st]. *)
Definition with_globals (c : Constants) (st : state) : state :=
  mkState c (stdout st) (stderr st).

(** The number of bytes of the white space character [s] starts with, 0
    when it starts with none. *)
Definition space_width (s : string) : nat :=
  match s with
  | EmptyString => 0
  | String a s1 =>
      if ascii_space a then 1
      else
        match s1 with
        | EmptyString => 0
        | String b s2 =>
            if space2 a b then 2
            else
              match s2 with
              | EmptyString => 0
              | String c _ => if space3 a b c then 3 else 0
              end
        end
  end%nat.

(** No white space character starts inside [t], read with [rest] after
    it. *)
Fixpoint clear (t rest : string) : bool :=
  match t with
  | EmptyString => true
  | String a t' => (space_width (t ++ rest) =? 0)%nat && clear t' rest
  end.

(** A token: not empty, no white space character inside. *)
Definition is_token (t : string) : bool :=
  negb (String.eqb t "") && clear t "".

(** The word collected so far by [split_from], [""] when there is none. *)
Definition pending (cur : option string) : string :=
  match cur with
  | Some w => w
  | None => ""
  end.

(** [s] without its first [n] bytes. *)
Fixpoint drop (n : nat) (s : string) : string :=
  match n, s with
  | S n', String _ s' => drop n' s'
  | _, _ => s
  end.

(** A character [json.dumps] copies as it is with [ensure_ascii=False]. *)
Definition plain_char (a : ascii) : bool :=
  let n := nat_of_ascii a in
  ((32 <=? n) && negb (n =? 34) && negb (n =? 92))%nat.

Fixpoint all_plain (s : string) : bool :=
  match s with
  | EmptyString => true
  | String a s' => plain_char a && all_plain s'
  end.

(** No key occurs twice. *)
Fixpoint distinct (keys : list string) : bool :=
  match keys with
  | [] => true
  | k :: keys' => negb (existsb (String.eqb k) keys') && distinct keys'
  end.

(** Every dict inside [v], at any depth, has distinct keys. *)
Fixpoint unique_keys (v : pyval) : bool :=
  match v with
  | PyList l =>
      (fix all (l : list pyval) : bool :=
         match l with
         | [] => true
         | x :: l' => unique_keys x && all l'
         end) l
  | PyDict d =>
      distinct (map fst d)
      && (fix all (d : list (string * pyval)) : bool :=
            match d with
            | [] => true
            | (_, x) :: d' => unique_keys x && all d'
            end) d
  | _ => true
  end.

(** What comes of the attempt of [install] to run the install command: no
    working directory, no executable named (the command has no token), a
    NUL character in an argument or in the directory, or a child process,
    started or not, with what it writes on the two streams. *)
Inductive attempt : Type :=
| NoDirectory (e : launch_error)
| NoExecutable
| NulCharacter
| Child (o : proc_outcome) (out err : string).

Definition install_attempt (P : Platform) (c : Constants) : attempt :=
  match getcwd P with
  | NoCwd e => NoDirectory e
  | Cwd cwd =>
      match split (INSTALL_COMMAND c) with
      | [] => NoExecutable
      | args =>
          if existsb has_nul (cwd :: args) then NulCharacter
          else Child (spawn P args cwd) (child_stdout P args cwd)
                 (child_stderr P args cwd)
      end
  end.

(** The state after a child process wrote [out] and [err]. *)
Definition child_wrote (out err : string) (st : state) : state :=
  mkState (globals st) (stdout st ++ out) (stderr st ++ err).

(** A platform with a child process that writes on both streams and exits
    with status [rc]. *)
Definition noisy_platform (rc : Z) : Platform := {|
  spawn := fun _ _ => Exited rc;
  child_stdout := fun _ _ => line "Lockfile is up to date";
  child_stderr := fun _ _ => line "WARN deprecated package";
  getcwd := Cwd "/srv/manosaba_ai";
  str_CalledProcessError := fun rc _ => "exit status " ++ str_int rc;
  repr_container := fun _ => "";
  prog := "modularflow_config.py";
  format_help := "usage: modularflow_config.py [-h] [--get-config] [--install] [--info]";
  format_usage := "usage: modularflow_config.py [-h] [--get-config] [--install] [--info]";
  format_traceback := fun _ => "Traceback"
|}.

(** The announcement [install] prints first. *)
Definition announcement (c : Constants) : string :=
  line ("🚀 安装 " ++ DISPLAY_NAME c ++ "...").

(** * Properties *)

(** ** Strings *)

Lemma append_nil_r (s : string) : s ++ "" = s.
Proof. induction s as [|a s IH]; simpl; [reflexivity | now rewrite IH]. Qed.

Lemma append_assoc (s t u : string) : (s ++ t) ++ u = s ++ t ++ u.
Proof. induction s as [|a s IH]; simpl; [reflexivity | now rewrite IH]. Qed.


Lemma list_of_append (s t : string) :
  list_ascii_of_string (s ++ t)
  = (list_ascii_of_string s ++ list_ascii_of_string t)%list.
Proof. induction s as [|a s IH]; simpl; [reflexivity | now rewrite IH]. Qed.

Lemma append_inv_tail (s t u : string) : t ++ s = u ++ s -> t = u.
Proof.
  intros H. apply (f_equal list_ascii_of_string) in H.
  rewrite !list_of_append in H. apply app_inv_tail in H.
  rewrite <- (string_of_list_ascii_of_string t),
          <- (string_of_list_ascii_of_string u).
  now rewrite H.
Qed.

(** Right-nested concatenations, literal prefixes pushed inwards. *)
Ltac normalize_append :=
  repeat (rewrite !append_assoc; cbn [append]).

(** ** Decimal rendering of integers *)

Lemma to_int_proper (z : Z) :
  Z.to_int z <> Pos Nil /\ Z.to_int z <> Neg Nil.
Proof.
  destruct z as [|p|p]; simpl; split; try discriminate;
    intros [= H]; now apply (DecimalPos.Unsigned.to_uint_nonnil p).
Qed.

Lemma int_of_string_str_int (z : Z) :
  NilZero.int_of_string (str_int z) = Some (Z.to_int z).
Proof.
  unfold str_int. destruct (to_int_proper z) as [H1 H2].
  now apply NilZero.isi.
Qed.

Lemma int_of_str_str_int (z : Z) : int_of_str (str_int z) = Some z.
Proof.
  unfold int_of_str. rewrite int_of_string_str_int. simpl.
  now rewrite DecimalZ.of_to.
Qed.

Lemma str_int_inj (z z' : Z) : str_int z = str_int z' -> z = z'.
Proof.
  intros H. apply (f_equal int_of_str) in H.
  rewrite !int_of_str_str_int in H. now injection H.
Qed.

Create HintDb ports.
#[local] Hint Resolve str_int_inj : ports.



(** ** The getters' fields *)

(** C9. Whatever the constants are, [get_project_info()] returns, without
    touching the state, a dict with the seven keys of the source whose
    [name], [display_name] and [type] fields are the constants
    [PROJECT_NAME], [DISPLAY_NAME] and [PROJECT_TYPE] and whose other fields
    are the literals of the source; with the default configuration [name]
    is "manosaba_ai" and [type] is "nextjs". *)
Theorem get_project_info_fields (P : Platform) (st : state) :
  let c := globals st in
  let info := get_project_info c in
  call P m_get_project_info st = (Returned info, st)
  /\ dict_keys info
     = ["name"; "display_name"; "version"; "description"; "type"; "author";
        "license"]
  /\ getitem info "name" = Some (PyStr (PROJECT_NAME c))
  /\ getitem info "display_name" = Some (PyStr (DISPLAY_NAME c))
  /\ getitem info "type" = Some (PyStr (PROJECT_TYPE c))
  /\ getitem info "version" = Some (PyStr "1.0.0")
  /\ getitem info "description" = Some (PyStr "基于Next.js的AI智能助手应用")
  /\ getitem info "author" = Some (PyStr "Manosaba Team")
  /\ getitem info "license" = Some (PyStr "MIT")
  /\ getitem (get_project_info default_constants) "name"
     = Some (PyStr "manosaba_ai")
  /\ getitem (get_project_info default_constants) "type"
     = Some (PyStr "nextjs").
Proof. cbv zeta. repeat split. Qed.

(** C10. [get_runtime_config()]'s [port] is [FRONTEND_PORT], whatever the
    two other ports are; its install, dev and build commands are the
    constants [INSTALL_COMMAND], [DEV_COMMAND] and [BUILD_COMMAND]; its test
    and lint commands are the literals "pnpm test" and "pnpm run lint". *)
Theorem get_runtime_config_fields (P : Platform) (st : state) (b w : Z) :
  let c := globals st in
  let runtime := get_runtime_config c in
  call P m_get_runtime_config st = (Returned runtime, st)
  /\ dict_keys runtime
     = ["port"; "install_command"; "dev_command"; "build_command";
        "test_command"; "lint_command"]
  /\ getitem runtime "port" = Some (PyInt (FRONTEND_PORT c))
  /\ getitem (get_runtime_config (set_BACKEND_PORT b (set_WEBSOCKET_PORT w c)))
       "port" = Some (PyInt (FRONTEND_PORT c))
  /\ getitem runtime "install_command" = Some (PyStr (INSTALL_COMMAND c))
  /\ getitem runtime "dev_command" = Some (PyStr (DEV_COMMAND c))
  /\ getitem runtime "build_command" = Some (PyStr (BUILD_COMMAND c))
  /\ getitem runtime "test_command" = Some (PyStr "pnpm test")
  /\ getitem runtime "lint_command" = Some (PyStr "pnpm run lint").
Proof. cbv zeta. repeat split. Qed.

(** ** Derived endpoints *)





(** ** Totality and idempotence of the getters *)

Lemma getter_returns (P : Platform) (m : method) (st : state) :
  is_getter m = true ->
  exists d, call P m st = (Returned (PyDict d), st).
Proof.
  destruct m; intros H; try discriminate H; eexists; reflexivity.
Qed.

Lemma rendered_interpolated (limit : nat) (m : method) (c : Constants) :
  ports_rendered limit c = true -> rendered limit (interpolated m c) = true.
Proof.
  unfold ports_rendered, rendered. cbn [forallb]. intros H.
  apply andb_prop in H as [Hf H]. apply andb_prop in H as [Hb H].
  apply andb_prop in H as [Hw _].
  destruct m; cbn [interpolated forallb]; now rewrite ?Hf, ?Hb, ?Hw.
Qed.

Lemma invoke_getter (limit : nat) (P : Platform) (m : method) (st : state) :
  is_getter m = true ->
  (rendered limit (interpolated m (globals st)) = true ->
   exists d, invoke limit P m st = (Returned (PyDict d), st)
             /\ call P m st = (Returned (PyDict d), st))
  /\ (rendered limit (interpolated m (globals st)) = false ->
      invoke limit P m st = (Raised ValueError, st)).
Proof.
  intros Hm. unfold rendered.
  destruct m; try discriminate Hm; cbn [interpolated forallb invoke];
    try (split; [intros _; eexists; split; reflexivity | discriminate]).
  - unfold api_config_method, bind, fstring_int, read_globals.
    destruct (exceeds limit (BACKEND_PORT (globals st)));
      [split; [discriminate | reflexivity]|].
    destruct (exceeds limit (WEBSOCKET_PORT (globals st)));
      [split; [discriminate | reflexivity]|].
    destruct (exceeds limit (FRONTEND_PORT (globals st)));
      [split; [discriminate | reflexivity]|].
    split; [intros _; eexists; split; reflexivity | discriminate].
  - unfold env_config_method, bind, fstring_int, read_globals.
    destruct (exceeds limit (BACKEND_PORT (globals st)));
      [split; [discriminate | reflexivity]|].
    destruct (exceeds limit (WEBSOCKET_PORT (globals st)));
      [split; [discriminate | reflexivity]|].
    split; [intros _; eexists; split; reflexivity | discriminate].
Qed.

(** C4 as amended. A getter returns, the state as it was, unless it renders
    in an f-string an integer with more digits than the interpreter's limit
    on integer-to-string conversion: [get_project_info],
    [get_runtime_config] and [get_dependencies] render none and always
    return; [get_api_config] and [get_env_config] return when the ports
    they render are within the limit, or the limit is off, and raise
    [ValueError] otherwise. With the three ports within the limit, a method
    of the facade that fails on some platform and state is [install]. *)
Theorem getters_return_within_digit_limit :
  (forall limit P m st,
     is_getter m = true ->
     rendered limit (interpolated m (globals st)) = true ->
     exists v, invoke limit P m st = (Returned v, st)
               /\ call P m st = (Returned v, st))
  /\ (forall limit P m st,
        is_getter m = true ->
        rendered limit (interpolated m (globals st)) = false ->
        invoke limit P m st = (Raised ValueError, st))
  /\ (forall limit P st,
        rendered limit (interpolated m_get_project_info (globals st)) = true
        /\ rendered limit (interpolated m_get_runtime_config (globals st))
           = true
        /\ rendered limit (interpolated m_get_dependencies (globals st))
           = true
        /\ invoke limit P m_install st = call P m_install st)
  /\ (forall c, ports_rendered 0 c = true)
  /\ (forall limit m,
        (exists P st, ports_rendered limit (globals st) = true
                      /\ failed (invoke limit P m st) = true)
        <-> m = m_install).
Proof.
  split; [|split; [|split; [|split]]].
  - intros limit P m st Hm Hr.
    destruct (proj1 (invoke_getter limit P m st Hm) Hr) as (d & H1 & H2).
    eauto.
  - intros limit P m st Hm Hr. now apply invoke_getter.
  - intros limit P st. repeat split.
  - intros c. reflexivity.
  - intros limit m. split.
    + intros (P & st & Hports & Hf). destruct m; try reflexivity;
        match type of Hf with
        | failed (invoke limit P ?g st) = true =>
            destruct (proj1 (invoke_getter limit P g st eq_refl)
                        (rendered_interpolated limit g _ Hports))
              as (d & Hd & _)
        end;
        unfold failed in Hf; rewrite Hd in Hf; discriminate Hf.
    + intros ->.
      exists (stub_platform (Exited 1)),
        (initial_state (set_FRONTEND_PORT 0
                          (set_BACKEND_PORT 0
                             (set_WEBSOCKET_PORT 0 default_constants)))).
      split; [|reflexivity]. now destruct limit as [|[|limit]].
Qed.

Lemma getters_return_within_digit_limit_witness :
  (is_getter m_get_api_config = true
   /\ rendered 4300
        (interpolated m_get_api_config
           (globals (initial_state default_constants))) = true)
  /\ exists v,
       invoke 4300 (stub_platform (Exited 0)) m_get_api_config
         (initial_state default_constants)
       = (Returned v, initial_state default_constants)
       /\ call (stub_platform (Exited 0)) m_get_api_config
            (initial_state default_constants)
          = (Returned v, initial_state default_constants).
Proof.
  split; [split; reflexivity|].
  exact (proj1 getters_return_within_digit_limit 4300%nat
           (stub_platform (Exited 0)) m_get_api_config
           (initial_state default_constants) eq_refl eq_refl).
Defined.

(** C4 as stated fails on an interpreter with the default limit of 4300
    digits: with [BACKEND_PORT] set to 10^4300, an integer of 4301 digits,
    [get_api_config] raises [ValueError]. *)
Lemma getter_raises_beyond_digit_limit : ~ getters_never_raise.
Proof.
  intros H.
  destruct (H 4300%nat (stub_platform (Exited 0)) m_get_api_config
              (initial_state (set_BACKEND_PORT (10 ^ 4300) default_constants))
              eq_refl) as [v Hv].
  assert (Hraise :
            fst (invoke 4300 (stub_platform (Exited 0)) m_get_api_config
                   (initial_state
                      (set_BACKEND_PORT (10 ^ 4300) default_constants)))
            = Raised ValueError) by (vm_compute; reflexivity).
  rewrite Hv in Hraise. discriminate Hraise.
Qed.

(** C5. Calling a getter twice in a row, the constants untouched in between,
    gives the same value both times and the same JSON text (indent 2,
    non-ASCII kept) both times; the state is as before. *)
Theorem getters_idempotent (P : Platform) (m : method) (st : state) :
  is_getter m = true ->
  exists v text,
    call_twice P m st = (Returned ((v, text), (v, text)), st)
    /\ call P m st = (Returned v, st)
    /\ text = json_dumps 2 v.
Proof.
  intros H. destruct (getter_returns P m st H) as [d Hd].
  exists (PyDict d), (json_dumps 2 (PyDict d)).
  split; [|split; [exact Hd | reflexivity]].
  unfold call_twice, bind. rewrite Hd. rewrite Hd. reflexivity.
Qed.

Lemma getters_idempotent_witness :
  is_getter m_get_env_config = true
  /\ exists v text,
       call_twice (stub_platform (Exited 0)) m_get_env_config
         (initial_state default_constants)
       = (Returned ((v, text), (v, text)), initial_state default_constants)
       /\ call (stub_platform (Exited 0)) m_get_env_config
            (initial_state default_constants)
          = (Returned v, initial_state default_constants)
       /\ text = json_dumps 2 v.
Proof.
  split; [reflexivity|].
  exact (getters_idempotent (stub_platform (Exited 0)) m_get_env_config
           (initial_state default_constants) eq_refl).
Defined.

(** ** [install] *)

Section Install.

Variable P : Platform.
Variable st : state.

Let c := globals st.
Let announced := say ("🚀 安装 " ++ DISPLAY_NAME c ++ "...") st.

(** [install] opened up to the point where the attempt decides. *)
Ltac open_install H :=
  unfold c, announced in *; unfold install_attempt in H;
  unfold install, bind, try_except, os_getcwd, subprocess_run, read_globals,
    print, write_stdout, write_stderr, ret, raise;
  cbn [globals stdout stderr];
  repeat match type of H with
         | context [getcwd P] => destruct (getcwd P) as [cwd | e0]
         | context [match split ?x with _ => _ end] =>
             destruct (split x) as [|arg args]
         | context [if ?b then _ else _] => destruct b
         end;
  try discriminate H.

(** Exit status zero: [True], after the completion message. *)
Lemma install_exit_zero (out err : string) :
  install_attempt P c = Child (Exited 0) out err ->
  install P st
  = (Returned true, say "✅ 安装完成" (child_wrote out err announced)).
Proof.
  intros H. open_install H. injection H as H <- <-. rewrite H. reflexivity.
Qed.

(** Another exit status: [False], after the failure message that shows
    the error. *)
Lemma install_exit_nonzero (rc : Z) (out err : string) :
  install_attempt P c = Child (Exited rc) out err -> rc <> 0 ->
  install P st
  = (Returned false,
     say ("❌ 安装失败: "
          ++ str_CalledProcessError P rc (split (INSTALL_COMMAND c)))
       (child_wrote out err announced)).
Proof.
  intros H Hrc. open_install H. injection H as H <- <-. rewrite H.
  apply Z.eqb_neq in Hrc. rewrite Hrc. reflexivity.
Qed.

(** No child process at all: the error leaves [install], nothing is
    printed after the announcement. *)
Lemma install_not_launched (e : launch_error) (out err : string) :
  install_attempt P c = Child (NotLaunched e) out err ->
  install P st = (Raised (OSError e), announced).
Proof.
  intros H. open_install H. injection H as H _ _. rewrite H. reflexivity.
Qed.

(** No working directory: the [OSError] of [os.getcwd()] leaves
    [install]. *)
Lemma install_no_directory (e : launch_error) :
  install_attempt P c = NoDirectory e ->
  install P st = (Raised (OSError e), announced).
Proof. intros H. open_install H. now injection H as ->. Qed.

(** A command without a token: [IndexError] leaves [install]. *)
Lemma install_no_executable :
  install_attempt P c = NoExecutable ->
  install P st = (Raised IndexError, announced).
Proof. intros H. open_install H. reflexivity. Qed.

(** A NUL character: [ValueError] leaves [install]. *)
Lemma install_nul_character :
  install_attempt P c = NulCharacter ->
  install P st = (Raised ValueError, announced).
Proof. intros H. open_install H. reflexivity. Qed.

(** [install] answers [True] exactly when the child exits with status
    zero. *)
Lemma install_true_iff :
  fst (install P st) = Returned true
  <-> exists out err, install_attempt P c = Child (Exited 0) out err.
Proof.
  split.
  - destruct (install_attempt P c) as [e | | | [rc | e] out err] eqn:Ha.
    + rewrite (install_no_directory e Ha). discriminate.
    + rewrite (install_no_executable Ha). discriminate.
    + rewrite (install_nul_character Ha). discriminate.
    + destruct (Z.eq_dec rc 0) as [-> | Hrc]; [now eauto|].
      rewrite (install_exit_nonzero rc out err Ha Hrc). discriminate.
    + rewrite (install_not_launched e out err Ha). discriminate.
  - intros (out & err & H). now rewrite (install_exit_zero out err H).
Qed.

End Install.

(** C1, at the input where the code departs from it: the executable of the
    install command is not found. [install] then returns neither [True] nor
    [False]: [FileNotFoundError], an [OSError] that the handler for
    [CalledProcessError] does not name, leaves [install] with only the
    announcement printed, and the script run with [--install] ends on the
    uncaught exception with exit status 1. *)
Theorem install_launch_failure_escapes :
  let P := stub_platform (NotLaunched FileNotFoundError) in
  install P (initial_state default_constants)
  = (Raised (OSError FileNotFoundError),
     say "🚀 安装 Manosaba AI..." (initial_state default_constants))
  /\ option_map exit_status (run_script P default_constants ["--install"])
     = Some 1.
Proof. split; reflexivity. Qed.

(** ** The command line *)

Lemma consume_only_flags (argv : list string) :
  only_flags argv = true ->
  exists ks, classify argv = Some ks
    /\ forall ns,
         consume ns [] ks
         = Parsed (Args.mk (Args.get_config ns || given "--get-config" argv)
                     (Args.install ns || given "--install" argv)
                     (Args.info ns || given "--info" argv)).
Proof.
  induction argv as [|a argv IH]; intros H.
  - exists []. split; [reflexivity|]. intros [g i f]. cbn.
    now rewrite !orb_false_r.
  - cbn [only_flags forallb] in H. apply andb_prop in H as [Ha Hrest].
    destruct (IH Hrest) as (ks & Hks & Hcons).
    cbn [existsb flag_strings] in Ha.
    destruct (String.eqb_spec a "--get-config") as [-> | _];
      [| destruct (String.eqb_spec a "--install") as [-> | _];
         [| destruct (String.eqb_spec a "--info") as [-> | _];
            [| discriminate Ha]]].
    all: eexists; split;
      [ cbn [classify]; rewrite Hks; reflexivity
      | intros [g i f]; cbn [consume]; rewrite Hcons;
        cbn; rewrite ?orb_true_r, ?orb_true_l; reflexivity ].
Qed.

Lemma scan_only_flags (argv : list string) :
  only_flags argv = true ->
  scan argv
  = Some (Parsed (Args.mk (given "--get-config" argv) (given "--install" argv)
                    (given "--info" argv))).
Proof.
  intros H. destruct (consume_only_flags argv H) as (ks & Hks & Hcons).
  unfold scan. rewrite Hks. cbn [option_map]. now rewrite Hcons.
Qed.

Lemma consume_unrecognized (ks : list (string * arg_kind)) (ns : Args.t)
    (extras : list string) :
  asks_help ks = false -> (extras ++ extras_of ks)%list <> [] ->
  consume ns extras ks = Unrecognized (extras ++ extras_of ks).
Proof.
  revert ns extras.
  induction ks as [|[arg [[|d]|]] ks IH]; intros ns extras Hhelp Hextras.
  - cbn in *. rewrite app_nil_r in *. now destruct extras.
  - discriminate Hhelp.
  - cbn [consume]. now apply IH.
  - cbn [consume]. change (extras_of ((arg, Extra) :: ks))
      with (arg :: extras_of ks) in *.
    replace (extras ++ arg :: extras_of ks)%list
      with ((extras ++ [arg]) ++ extras_of ks)%list in *
      by (now rewrite <- app_assoc).
    now apply IH.
Qed.

Lemma run_script_parsed (P : Platform) (c : Constants) (argv : list string)
    (ns : Args.t) :
  scan argv = Some (Parsed ns) ->
  run_script P c argv = Some (finish P (dispatch P ns (initial_state c))).
Proof.
  intros H. unfold run_script, main, parse_args. rewrite H. reflexivity.
Qed.

(** C8 as amended, on the command lines the parser model covers, where
    every argument is an option string written in full, a positional
    argument, or a double-dash argument without equals sign that is no
    prefix of a declared option. A command line made of the three flags
    behaves as the first of [--get-config], [--install], [--info] that
    occurs on it would alone, wherever it stands: [--get-config] prints the
    configuration document, [--install] runs [install], [--info] prints the
    three summary lines. When the parser accepts the command line and none
    of the three flags is set, as with no argument at all, the help text is
    printed and the exit status is 0. When such a command line holds
    arguments the parser does not know and no help option, that fallback is
    not reached: usage and an error message naming these arguments go to
    standard error, nothing to standard output, and the exit status is
    2. *)
Theorem cli_first_match_wins (P : Platform) (c : Constants) :
  (forall argv, only_flags argv = true ->
     run_script P c argv
     = if given "--get-config" argv then run_script P c ["--get-config"]
       else if given "--install" argv then run_script P c ["--install"]
       else if given "--info" argv then run_script P c ["--info"]
       else Some (mkCompleted (format_help P) "" 0))
  /\ run_script P c [] = Some (mkCompleted (format_help P) "" 0)
  /\ (forall argv ns,
        scan argv = Some (Parsed ns) ->
        Args.get_config ns = false -> Args.install ns = false ->
        Args.info ns = false ->
        run_script P c argv = Some (mkCompleted (format_help P) "" 0))
  /\ run_script P c ["--get-config"]
     = Some (mkCompleted (line (json_dumps 2 (config_document c))) "" 0)
  /\ run_script P c ["--install"]
     = Some (finish P ((install P ;; ret tt) (initial_state c)))
  /\ run_script P c ["--info"]
     = Some (mkCompleted
               (line ("项目: " ++ DISPLAY_NAME c ++ " (" ++ PROJECT_NAME c ++ ")")
                ++ line ("类型: " ++ PROJECT_TYPE c)
                ++ line ("端口: " ++ str_int (FRONTEND_PORT c))) "" 0)
  /\ (forall argv ks,
        classify argv = Some ks -> asks_help ks = false ->
        extras_of ks <> [] ->
        run_script P c argv
        = Some (mkCompleted ""
                  (format_usage P
                   ++ line (prog P ++ ": error: unrecognized arguments: "
                            ++ join " " (extras_of ks))) 2)).
Proof.
  split; [|split; [|split; [|split; [|split; [|split]]]]]; try reflexivity.
  - intros argv H.
    rewrite (run_script_parsed P c argv _ (scan_only_flags argv H)).
    destruct (given "--get-config" argv); [reflexivity|].
    destruct (given "--install" argv); [reflexivity|].
    destruct (given "--info" argv); reflexivity.
  - intros argv [g i f] Hscan Hg Hi Hf. cbn in Hg, Hi, Hf. subst g i f.
    now rewrite (run_script_parsed P c argv _ Hscan).
  - rewrite (run_script_parsed P c ["--info"] (Args.mk false false true)
               eq_refl).
    cbv [finish bind ret dispatch call invoke project_info_method read_globals subscript print
         write_stdout initial_state globals stdout stderr format
         Args.get_config Args.install Args.info].
    cbn. unfold line. normalize_append. reflexivity.
  - intros argv ks Hks Hhelp Hextras.
    unfold run_script, main, parse_args, scan. rewrite Hks.
    cbn [option_map].
    rewrite (consume_unrecognized ks _ [] Hhelp Hextras).
    cbn. unfold line. normalize_append. reflexivity.
Qed.

Lemma cli_first_match_wins_witness :
  (only_flags ["--info"; "--install"; "--info"] = true
   /\ run_script (stub_platform (Exited 0)) default_constants
        ["--info"; "--install"; "--info"]
      = run_script (stub_platform (Exited 0)) default_constants ["--install"])
  /\ (classify ["--bogus"; "--info"; "extra"]
      = Some [("--bogus", Extra); ("--info", Opt (StoreTrue d_info));
              ("extra", Extra)]
      /\ option_map exit_status
           (run_script (stub_platform (Exited 0)) default_constants
              ["--bogus"; "--info"; "extra"]) = Some 2).
Proof.
  pose proof (cli_first_match_wins (stub_platform (Exited 0))
                default_constants)
    as (Hfirst & _ & _ & _ & _ & _ & Hunknown).
  split; (split; [reflexivity|]).
  - exact (Hfirst ["--info"; "--install"; "--info"] eq_refl).
  - rewrite (Hunknown ["--bogus"; "--info"; "extra"] _ eq_refl eq_refl);
      [reflexivity | discriminate].
Defined.

(** C8 as stated fails on an unknown flag: with [--bogus] none of the three
    flags is given, yet no help text is printed and the exit status is 2. *)
Lemma unknown_flag_is_rejected :
  ~ help_when_no_flag (stub_platform (Exited 0)) default_constants ["--bogus"].
Proof.
  intros H. destruct (H eq_refl eq_refl eq_refl) as (r & Hrun & _ & Hstatus).
  cbv in Hrun. injection Hrun as <-. discriminate Hstatus.
Qed.

(** ** Reading back what [json.dumps] writes *)

Lemma skip_ws_spaces (n : nat) (s : string) :
  skip_ws (spaces n ++ s) = skip_ws s.
Proof. induction n as [|n IH]; [reflexivity | exact IH]. Qed.

Lemma skip_ws_newline_indent (indent level : nat) (s : string) :
  skip_ws (newline_indent indent level ++ s) = skip_ws s.
Proof. unfold newline_indent. cbn. apply skip_ws_spaces. Qed.

Lemma skip_ws_start (a : ascii) (s : string) :
  is_ws a = false -> skip_ws (String a s) = String a s.
Proof. intros H. cbn. now rewrite H. Qed.

Lemma value_start_not_ws (a : ascii) : value_start a = true -> is_ws a = false.
Proof.
  destruct a as [[] [] [] [] [] [] [] []]; intros H; try reflexivity;
    discriminate H.
Qed.

Lemma digits_of_uint (u : uint) : all_digits (NilEmpty.string_of_uint u) = true.
Proof. induction u; cbn; auto. Qed.

Lemma span_digits_app (ds rest : string) :
  all_digits ds = true -> number_end rest = true ->
  span_digits (ds ++ rest) = (ds, rest).
Proof.
  intros Hds Hrest. induction ds as [|a ds IH].
  - cbn. destruct rest as [|b rest]; [reflexivity|].
    cbn in Hrest. apply andb_prop in Hrest as [Hb _].
    cbn. now destruct (is_digit b).
  - cbn in Hds. apply andb_prop in Hds as [Ha Hds].
    cbn. rewrite Ha, (IH Hds). reflexivity.
Qed.

Lemma digit_not_minus (a : ascii) :
  is_digit a = true -> Ascii.eqb a "-" = false.
Proof.
  destruct a as [[] [] [] [] [] [] [] []]; intros H; try reflexivity;
    discriminate H.
Qed.

(** The numeral of an integer: an optional minus sign, then digits. *)
Lemma str_int_shape (z : Z) :
  exists a ds,
    is_digit a = true /\ all_digits ds = true
    /\ (str_int z = String a ds \/ str_int z = String "-" (String a ds)).
Proof.
  assert (Hu : forall p, exists a ds,
             NilZero.string_of_uint (Pos.to_uint p) = String a ds
             /\ is_digit a = true /\ all_digits ds = true).
  { intros p. pose proof (DecimalPos.Unsigned.to_uint_nonnil p) as Hnil.
    pose proof (digits_of_uint (Pos.to_uint p)) as Hd.
    destruct (Pos.to_uint p) as [|u|u|u|u|u|u|u|u|u|u];
      [now destruct Hnil | ..];
      cbn in Hd |- *; eexists; eexists; (split; [reflexivity|]);
      (split; [reflexivity | exact Hd]). }
  destruct z as [|p|p].
  - exists "0"%char, "". repeat split. now left.
  - destruct (Hu p) as (a & ds & Hs & Ha & Hds). exists a, ds.
    repeat split; auto.
  - destruct (Hu p) as (a & ds & Hs & Ha & Hds). exists a, ds.
    repeat split; auto. right. unfold str_int. cbn. now rewrite Hs.
Qed.

Lemma parse_number_str_int (z : Z) (rest : string) :
  number_end rest = true ->
  parse_number (str_int z ++ rest) = Some (PyInt z, rest).
Proof.
  intros Hrest.
  assert (Hfloat : starts_float_tail rest = false).
  { destruct rest as [|b rest]; [reflexivity|].
    cbn in Hrest. apply andb_prop in Hrest as [_ Hb].
    now apply negb_true_iff in Hb. }
  pose proof (int_of_string_str_int z) as Hread.
  destruct (str_int_shape z) as (a & ds & Ha & Hds & [Hs | Hs]);
    rewrite Hs in Hread |- *; unfold parse_number; cbn [append].
  - rewrite (digit_not_minus a Ha).
    change (String a (ds ++ rest)) with (String a ds ++ rest).
    rewrite span_digits_app;
      [| cbn [all_digits]; now rewrite Ha | exact Hrest].
    rewrite Hfloat. cbn [append]. rewrite Hread.
    rewrite DecimalZ.of_to, Hs, String.eqb_refl. reflexivity.
  - cbn [Ascii.eqb Bool.eqb].
    change (String a (ds ++ rest)) with (String a ds ++ rest).
    rewrite span_digits_app;
      [| cbn [all_digits]; now rewrite Ha | exact Hrest].
    rewrite Hfloat. cbn [append]. rewrite Hread.
    rewrite DecimalZ.of_to, Hs, String.eqb_refl. reflexivity.
Qed.

Lemma parse_chars_escape_char (a : ascii) (t : string) :
  parse_chars (escape_char a ++ t) = prepend (String a "") (parse_chars t).
Proof. destruct a as [[] [] [] [] [] [] [] []]; reflexivity. Qed.

Lemma parse_chars_escape (s rest : string) :
  parse_chars (escape s ++ String dquote rest) = Some (s, rest).
Proof.
  induction s as [|a s IH].
  - reflexivity.
  - cbn [escape]. rewrite append_assoc, parse_chars_escape_char, IH.
    reflexivity.
Qed.

Lemma parse_chars_basestring (s rest : string) :
  parse_chars (escape s ++ String dquote "" ++ rest) = Some (s, rest).
Proof. apply parse_chars_escape. Qed.

Lemma weight_list (l : list pyval) : weight (PyList l) = S (elements_weight l).
Proof.
  reflexivity.
Qed.

Lemma weight_dict (d : list (string * pyval)) :
  weight (PyDict d) = S (members_weight d).
Proof.
  reflexivity.
Qed.

Lemma iterencode_list_items (indent level : nat) (x : pyval)
    (xs : list pyval) :
  iterencode indent level (PyList (x :: xs))
  = "[" ++ newline_indent indent (S level) ++ iterencode indent (S level) x
        ++ list_items indent (S level) xs ++ newline_indent indent level
        ++ "]".
Proof. reflexivity. Qed.

Lemma iterencode_dict_items (indent level : nat) (k : string) (x : pyval)
    (kxs : list (string * pyval)) :
  iterencode indent level (PyDict ((k, x) :: kxs))
  = "{" ++ newline_indent indent (S level) ++ encode_basestring k ++ ": "
        ++ iterencode indent (S level) x
        ++ dict_items indent (S level) kxs ++ newline_indent indent level
        ++ "}".
Proof. reflexivity. Qed.

Lemma list_items_text (indent level : nat) (xs : list pyval) (close : string) :
  list_items indent level xs ++ close
  = match xs with
    | [] => close
    | _ :: _ => "," ++ elements_text indent level xs close
    end.
Proof.
  induction xs as [|y ys IH]; [reflexivity|].
  change (list_items indent level (y :: ys))
    with ("," ++ newline_indent indent level ++ iterencode indent level y
              ++ list_items indent level ys).
  cbn [elements_text]. normalize_append. now rewrite IH.
Qed.

Lemma dict_items_text (indent level : nat) (kxs : list (string * pyval))
    (close : string) :
  dict_items indent level kxs ++ close
  = match kxs with
    | [] => close
    | _ :: _ => "," ++ members_text indent level kxs close
    end.
Proof.
  induction kxs as [|[k y] ys IH]; [reflexivity|].
  change (dict_items indent level ((k, y) :: ys))
    with ("," ++ newline_indent indent level ++ encode_basestring k ++ ": "
              ++ iterencode indent level y ++ dict_items indent level ys).
  cbn [members_text]. normalize_append. now rewrite IH.
Qed.

Lemma iterencode_list (indent level : nat) (x : pyval) (xs : list pyval)
    (rest : string) :
  iterencode indent level (PyList (x :: xs)) ++ rest
  = String "[" (elements_text indent (S level) (x :: xs)
                  (newline_indent indent level ++ String "]" rest)).
Proof.
  rewrite iterencode_list_items. cbn [elements_text]. normalize_append.
  now rewrite list_items_text.
Qed.

Lemma iterencode_dict (indent level : nat) (k : string) (x : pyval)
    (kxs : list (string * pyval)) (rest : string) :
  iterencode indent level (PyDict ((k, x) :: kxs)) ++ rest
  = String "{" (members_text indent (S level) ((k, x) :: kxs)
                  (newline_indent indent level ++ String "}" rest)).
Proof.
  rewrite iterencode_dict_items. cbn [members_text]. normalize_append.
  now rewrite dict_items_text.
Qed.

Lemma digit_value_start (a : ascii) : is_digit a = true -> value_start a = true.
Proof. intros H. unfold value_start. now rewrite H. Qed.

(** Every encoded value starts with a character that starts a value. *)
Lemma iterencode_head (indent level : nat) (v : pyval) (rest : string) :
  exists a t,
    iterencode indent level v ++ rest = String a t /\ value_start a = true.
Proof.
  destruct v as [|[]|z|s|[|x xs]|[|[k x] kxs]];
    try (eexists; eexists; split; [reflexivity | reflexivity]).
  cbn [iterencode].
  destruct (str_int_shape z) as (a & ds & Ha & _ & [-> | ->]);
    eexists; eexists; (split; [reflexivity|]);
    [now apply digit_value_start | reflexivity].
Qed.

Lemma value_step_number pe pm (a : ascii) (r : string) :
  is_digit a = true \/ a = "-"%char ->
  value_step pe pm (String a r) = parse_number (String a r).
Proof.
  intros [H | ->]; [|reflexivity].
  destruct a as [[] [] [] [] [] [] [] []]; try discriminate H; reflexivity.
Qed.

Lemma value_start_not_closing (a : ascii) :
  value_start a = true ->
  Ascii.eqb "]" a = false /\ Ascii.eqb "}" a = false.
Proof.
  destruct a as [[] [] [] [] [] [] [] []]; intros H; try discriminate H;
    split; reflexivity.
Qed.

Lemma skip_ws_value (indent level : nat) (v : pyval) (rest : string) :
  skip_ws (iterencode indent level v ++ rest)
  = iterencode indent level v ++ rest.
Proof.
  destruct (iterencode_head indent level v rest) as (a & t & -> & Ha).
  apply skip_ws_start. now apply value_start_not_ws.
Qed.

Lemma parse_value_indented (fuel indent level : nat) (s : string) :
  parse_value fuel (newline_indent indent level ++ s) = parse_value fuel s.
Proof.
  destruct fuel as [|fuel]; [reflexivity|].
  cbn [parse_value]. unfold value_step.
  now rewrite skip_ws_newline_indent.
Qed.

Lemma parse_value_space (fuel : nat) (s : string) :
  parse_value fuel (String " " s) = parse_value fuel s.
Proof. destruct fuel; reflexivity. Qed.

Section ReaderSteps.

Variable pe : string -> option (list pyval * string).
Variable pm : string -> option (list (string * pyval) * string).

Lemma value_step_string (r : string) :
  value_step pe pm (String dquote r)
  = match parse_chars r with
    | Some (t, r') => Some (PyStr t, r')
    | None => None
    end.
Proof. reflexivity. Qed.

Lemma value_step_list (r : string) :
  value_step pe pm (String "[" r)
  = match next_is "]" (skip_ws r) with
    | Some r' => Some (PyList [], r')
    | None =>
        match pe r with
        | Some (l, r') => Some (PyList l, r')
        | None => None
        end
    end.
Proof. reflexivity. Qed.

Lemma value_step_dict (r : string) :
  value_step pe pm (String "{" r)
  = match next_is "}" (skip_ws r) with
    | Some r' => Some (PyDict [], r')
    | None =>
        match pm r with
        | Some (d, r') => Some (PyDict d, r')
        | None => None
        end
    end.
Proof. reflexivity. Qed.

End ReaderSteps.

Lemma next_is_closing_value (indent level : nat) (v : pyval) (s : string) :
  next_is "]" (skip_ws (newline_indent indent level
                          ++ iterencode indent level v ++ s)) = None.
Proof.
  rewrite skip_ws_newline_indent, skip_ws_value.
  destruct (iterencode_head indent level v s) as (a & t & -> & Ha).
  cbn [next_is]. now rewrite (proj1 (value_start_not_closing a Ha)).
Qed.

Lemma next_is_closing_elements (indent level : nat) (x : pyval)
    (xs : list pyval) (close : string) :
  next_is "]" (skip_ws (elements_text indent level (x :: xs) close)) = None.
Proof. cbn [elements_text]. apply next_is_closing_value. Qed.

Lemma next_is_closing_members (indent level : nat) (k : string) (x : pyval)
    (kxs : list (string * pyval)) (close : string) :
  next_is "}" (skip_ws (members_text indent level ((k, x) :: kxs) close))
  = None.
Proof. cbn [members_text]. now rewrite skip_ws_newline_indent. Qed.

Lemma reads_values_step (fuel : nat) :
  reads_elements fuel -> reads_members fuel -> reads_values (S fuel).
Proof.
  intros He Hm v indent level rest Hw Hend. cbn [parse_value].
  destruct v as [|[]|z|s|[|x xs]|[|[k x] kxs]]; try reflexivity.
  - cbn [iterencode].
    assert (Hstep : value_step (parse_elements fuel) (parse_members fuel)
                      (str_int z ++ rest)
                    = parse_number (str_int z ++ rest)).
    { destruct (str_int_shape z) as (a & ds & Ha & _ & [-> | ->]);
        cbn [append]; apply value_step_number; auto. }
    rewrite Hstep. now apply parse_number_str_int.
  - change (iterencode indent level (PyStr s) ++ rest)
      with (String dquote ((escape s ++ String dquote "") ++ rest)).
    rewrite append_assoc, value_step_string, parse_chars_basestring.
    reflexivity.
  - rewrite iterencode_list, value_step_list.
    rewrite next_is_closing_elements.
    rewrite He; [reflexivity|]. rewrite weight_list in Hw. lia.
  - rewrite iterencode_dict, value_step_dict.
    rewrite next_is_closing_members.
    rewrite Hm; [reflexivity|]. rewrite weight_dict in Hw. lia.
Qed.

Lemma reads_elements_step (fuel : nat) :
  reads_values fuel -> reads_elements fuel -> reads_elements (S fuel).
Proof.
  intros Hv He x xs indent level level' rest Hw.
  cbn [parse_elements elements_weight] in *. unfold elements_step.
  cbn [elements_text]. rewrite parse_value_indented.
  rewrite Hv; [| lia | now destruct xs].
  destruct xs as [|y ys].
  - rewrite skip_ws_newline_indent. reflexivity.
  - cbn [append]. rewrite skip_ws_start by reflexivity.
    change (Ascii.eqb "," ",") with true. cbv iota.
    rewrite He; [reflexivity|]. cbn [elements_weight] in *. lia.
Qed.

Lemma reads_members_step (fuel : nat) :
  reads_values fuel -> reads_members fuel -> reads_members (S fuel).
Proof.
  intros Hv Hm k x kxs indent level level' rest Hw.
  cbn [parse_members members_weight] in *. unfold members_step.
  cbn [members_text]. rewrite skip_ws_newline_indent.
  change (encode_basestring k ++ ": " ++ ?t)
    with (String dquote ((escape k ++ String dquote "") ++ ": " ++ t)).
  rewrite skip_ws_start by reflexivity. cbn [next_is].
  change (Ascii.eqb dquote dquote) with true. cbv iota.
  rewrite append_assoc, parse_chars_basestring.
  cbn [append]. rewrite skip_ws_start by reflexivity. cbn [next_is].
  change (Ascii.eqb ":" ":") with true. cbv iota.
  rewrite parse_value_space.
  rewrite Hv; [| lia | now destruct kxs].
  destruct kxs as [|[k' y] ys].
  - rewrite skip_ws_newline_indent. reflexivity.
  - cbn [append]. rewrite skip_ws_start by reflexivity.
    change (Ascii.eqb "," ",") with true. cbv iota.
    rewrite Hm; [reflexivity|]. cbn [members_weight] in *. lia.
Qed.

Lemma readers_base :
  reads_values 0 /\ reads_elements 0 /\ reads_members 0.
Proof.
  repeat split.
  - intros v indent level rest Hw _. destruct v; cbn in Hw; lia.
  - intros x xs indent level level' rest Hw. cbn in Hw. lia.
  - intros k x kxs indent level level' rest Hw. cbn in Hw. lia.
Qed.

Lemma readers (fuel : nat) :
  reads_values fuel /\ reads_elements fuel /\ reads_members fuel.
Proof.
  induction fuel as [|fuel (Hv & He & Hm)]; [exact readers_base|].
  repeat split;
    auto using reads_values_step, reads_elements_step, reads_members_step.
Qed.

(** Enough fuel for [json_loads]. *)

Lemma length_append (s t : string) :
  String.length (s ++ t) = (String.length s + String.length t)%nat.
Proof. induction s as [|a s IH]; cbn; [reflexivity | now rewrite IH]. Qed.

Lemma weights_fit (n : nat) :
  short_values n /\ short_elements n /\ short_members n.
Proof.
  induction n as [|n (Hv & He & Hm)].
  - repeat split.
    + intros v indent level Hw. destruct v; cbn in Hw; lia.
    + intros [|x l] indent level Hw; cbn in Hw |- *; lia.
    + intros [|[k x] d] indent level Hw; cbn in Hw |- *; lia.
  - repeat split.
    + intros v indent level Hw.
      destruct v as [|[]|z|s|[|x xs]|[|[k x] kxs]];
        try (cbn; lia).
      * cbn [iterencode weight].
        destruct (str_int_shape z) as (a & ds & _ & _ & [-> | ->]);
          cbn; lia.
      * rewrite iterencode_list_items, weight_list in *.
        cbn [elements_weight] in *.
        pose proof (Hv x indent (S level)).
        pose proof (He xs indent (S level)).
        rewrite !length_append. cbn [String.length]. lia.
      * rewrite iterencode_dict_items, weight_dict in *.
        cbn [members_weight] in *.
        pose proof (Hv x indent (S level)).
        pose proof (Hm kxs indent (S level)).
        rewrite !length_append. cbn [String.length]. lia.
    + intros [|x l] indent level Hw; [cbn; lia|].
      change (list_items indent level (x :: l))
        with ("," ++ newline_indent indent level ++ iterencode indent level x
                  ++ list_items indent level l).
      cbn [elements_weight] in *.
      pose proof (Hv x indent level). pose proof (He l indent level).
      rewrite !length_append. cbn [String.length]. lia.
    + intros [|[k x] d] indent level Hw; [cbn; lia|].
      change (dict_items indent level ((k, x) :: d))
        with ("," ++ newline_indent indent level ++ encode_basestring k
                  ++ ": " ++ iterencode indent level x
                  ++ dict_items indent level d).
      cbn [members_weight] in *.
      pose proof (Hv x indent level). pose proof (Hm d indent level).
      rewrite !length_append. cbn [String.length]. lia.
Qed.

Lemma weight_le_length (indent level : nat) (v : pyval) :
  (weight v <= String.length (iterencode indent level v))%nat.
Proof. now apply (proj1 (weights_fit (weight v))). Qed.

(** Reading the encoder's output, followed by white space only, gives the
    value back. *)
Lemma json_loads_dumps_ws (indent : nat) (v : pyval) (tail : string) :
  number_end tail = true -> skip_ws tail = "" ->
  json_loads (json_dumps indent v ++ tail) = Some v.
Proof.
  intros Hend Hws. unfold json_loads, json_dumps.
  rewrite (proj1 (readers _)); [now rewrite Hws | | exact Hend].
  rewrite length_append. pose proof (weight_le_length indent 0 v). lia.
Qed.

Lemma json_loads_dumps (indent : nat) (v : pyval) :
  json_loads (json_dumps indent v) = Some v.
Proof.
  rewrite <- (append_nil_r (json_dumps indent v)).
  now apply json_loads_dumps_ws.
Qed.

Lemma json_loads_printed (indent : nat) (v : pyval) :
  json_loads (line (json_dumps indent v)) = Some v.
Proof. now apply json_loads_dumps_ws. Qed.

(** ** [--get-config] *)

(** C7. Run with [--get-config], the script ends with status 0, writes
    nothing to standard error, and what it prints reads back as a JSON
    object whose keys are exactly [project], [runtime], [dependencies],
    [api] and [environment], in this order, each holding what the getter of
    that section returns for the constants in force. *)
Theorem get_config_prints_json (P : Platform) (c : Constants) :
  exists text doc,
    run_script P c ["--get-config"] = Some (mkCompleted text "" 0)
    /\ json_loads text = Some doc
    /\ dict_keys doc = map fst document_sections
    /\ Forall (fun section =>
                 exists v,
                   call P (snd section) (initial_state c)
                   = (Returned v, initial_state c)
                   /\ getitem doc (fst section) = Some v)
         document_sections.
Proof.
  exists (line (json_dumps 2 (config_document c))), (config_document c).
  split; [reflexivity|]. split; [apply json_loads_printed|].
  split; [reflexivity|].
  repeat constructor; eexists; split; reflexivity.
Qed.

(** ** The default configuration, run *)

Example split_install_command :
  split (INSTALL_COMMAND default_constants) = ["pnpm"; "install"].
Proof. reflexivity. Qed.

Example split_blank : split "  " = [].
Proof. reflexivity. Qed.

Example str_int_examples :
  str_int 8000 = "8000" /\ str_int 0 = "0" /\ str_int (-15) = "-15".
Proof. repeat split. Qed.

Example json_dumps_layout :
  json_dumps 2 (PyList [PyInt 3002; PyList []; PyList [PyBool true; PyNone]])
  = line "[" ++ line "  3002," ++ line "  []," ++ line "  ["
    ++ line "    true," ++ line "    null" ++ line "  ]" ++ "]".
Proof. reflexivity. Qed.

Example encode_basestring_escapes :
  encode_basestring (String (ascii_of_nat 9) (String (ascii_of_nat 7) "é"))
  = String dquote ("\t\u0007é" ++ String dquote "").
Proof. reflexivity. Qed.

Example json_loads_rejects :
  json_loads "[01]" = None /\ json_loads "[1.5]" = None
  /\ json_loads "[1] x" = None /\ json_loads "[1,]" = None.
Proof. repeat split. Qed.

Example info_default :
  run_script (stub_platform (Exited 0)) default_constants ["--info"]
  = Some (mkCompleted
            (line "项目: Manosaba AI (manosaba_ai)" ++ line "类型: nextjs"
             ++ line "端口: 3002") "" 0).
Proof. reflexivity. Qed.

Example install_succeeds :
  install (stub_platform (Exited 0)) (initial_state default_constants)
  = (Returned true,
     say "✅ 安装完成"
       (say "🚀 安装 Manosaba AI..." (initial_state default_constants))).
Proof. reflexivity. Qed.

Example install_fails :
  install (stub_platform (Exited 1)) (initial_state default_constants)
  = (Returned false,
     say "❌ 安装失败: exit status 1"
       (say "🚀 安装 Manosaba AI..." (initial_state default_constants))).
Proof. reflexivity. Qed.

Example get_config_default_reads_back :
  option_map (fun r => json_loads (output r))
    (run_script (stub_platform (Exited 0)) default_constants ["--get-config"])
  = Some (Some (config_document default_constants)).
Proof. vm_compute. reflexivity. Qed.

Example help_wins_over_unknown :
  run_script (stub_platform (Exited 0)) default_constants ["--bogus"; "--help"]
  = Some (mkCompleted (format_help (stub_platform (Exited 0))) "" 0).
Proof. reflexivity. Qed.

Example abbreviation_not_modelled :
  run_script (stub_platform (Exited 0)) default_constants ["--get"] = None.
Proof. reflexivity. Qed.

(** * Further properties of the script *)

(** ** Getters *)



(** X3. Among the getters, [get_dependencies] is the one whose result is the
    same whatever the constants are: every other getter returns different
    values for some two configurations. *)
Theorem only_dependencies_ignore_constants (P : Platform) (m : method) :
  is_getter m = true ->
  ((forall st st', fst (call P m st) = fst (call P m st'))
   <-> m = m_get_dependencies).
Proof.
  intros Hm. split.
  - intros H.
    specialize (H (initial_state default_constants)
                  (initial_state (mkConstants 1 1 1 "p" "d" "t" "i" "v" "b"))).
    destruct m; try reflexivity; try discriminate H; discriminate Hm.
  - intros -> st st'. reflexivity.
Qed.

Lemma only_dependencies_ignore_constants_witness :
  is_getter m_get_dependencies = true
  /\ forall st st',
       fst (call (stub_platform (Exited 0)) m_get_dependencies st)
       = fst (call (stub_platform (Exited 0)) m_get_dependencies st').
Proof.
  split; [reflexivity|].
  exact (proj2 (only_dependencies_ignore_constants
                  (stub_platform (Exited 0)) m_get_dependencies eq_refl)
           eq_refl).
Defined.

(** ** [install] *)

Ltac break_down :=
  repeat match goal with
         | H : exists _, _ |- _ => destruct H
         | H : _ /\ _ |- _ => destruct H
         | H : _ \/ _ |- _ => destruct H
         end.

(** X4. What [install] answers is decided by its attempt to run the install
    command: [True] exactly when a child process ran and exited with status
    0, [False] exactly when it exited with another status. An exception
    leaves [install] exactly when no child process ran: the [OSError] of a
    working directory that cannot be determined or of a child that cannot
    be started, [IndexError] for a command without a token, [ValueError]
    for a NUL character in an argument. *)
Theorem install_result (P : Platform) (st : state) :
  let a := install_attempt P (globals st) in
  (fst (install P st) = Returned true
   <-> exists out err, a = Child (Exited 0) out err)
  /\ (fst (install P st) = Returned false
      <-> exists rc out err, rc <> 0 /\ a = Child (Exited rc) out err)
  /\ (forall e,
        fst (install P st) = Raised e
        <-> (exists le,
               e = OSError le
               /\ (a = NoDirectory le
                   \/ exists out err, a = Child (NotLaunched le) out err))
            \/ (e = IndexError /\ a = NoExecutable)
            \/ (e = ValueError /\ a = NulCharacter)).
Proof.
  cbv zeta.
  destruct (install_attempt P (globals st)) as [le | | | [rc | le] out err]
    eqn:Ha.
  - rewrite (install_no_directory P st le Ha). cbn [fst].
    repeat split; intros; break_down; try congruence.
    left. exists le. split; [congruence | now left].
  - rewrite (install_no_executable P st Ha). cbn [fst].
    repeat split; intros; break_down; try congruence.
    right. left. split; congruence.
  - rewrite (install_nul_character P st Ha). cbn [fst].
    repeat split; intros; break_down; try congruence.
    right. right. split; congruence.
  - destruct (Z.eq_dec rc 0) as [-> | Hrc].
    + rewrite (install_exit_zero P st out err Ha). cbn [fst].
      repeat split; intros; break_down; try congruence; eauto.
    + rewrite (install_exit_nonzero P st rc out err Ha Hrc). cbn [fst].
      repeat split; intros; break_down; try congruence; eauto.
  - rewrite (install_not_launched P st le out err Ha). cbn [fst].
    repeat split; intros; break_down; try congruence.
    left. exists le. split; [congruence | right; eauto].
Qed.

(** X5. [install] leaves the constants as they are and first prints the
    announcement with the display name. When a child process runs, what the
    child writes follows on the two streams, and then [install] prints one
    line: the completion message after exit status 0, the failure message
    with the error otherwise. When no child process runs, nothing follows
    the announcement. [install] itself writes nothing to standard error. *)
Theorem install_output (P : Platform) (st : state) :
  let c := globals st in
  let r := install P st in
  globals (snd r) = c
  /\ exists out err more,
       stdout (snd r) = stdout st ++ announcement c ++ out ++ more
       /\ stderr (snd r) = stderr st ++ err
       /\ match install_attempt P c with
          | Child (Exited rc) o e =>
              out = o /\ err = e
              /\ more = line (if rc =? 0 then "✅ 安装完成"
                              else "❌ 安装失败: "
                                   ++ str_CalledProcessError P rc
                                        (split (INSTALL_COMMAND c)))
          | _ => out = "" /\ err = "" /\ more = ""
          end.
Proof.
  cbv zeta. unfold announcement.
  destruct (install_attempt P (globals st)) as [le | | | [rc | le] out err]
    eqn:Ha.
  - rewrite (install_no_directory P st le Ha). split; [reflexivity|].
    exists "", "", "". cbn. rewrite !append_nil_r. unfold line.
    now normalize_append.
  - rewrite (install_no_executable P st Ha). split; [reflexivity|].
    exists "", "", "". cbn. rewrite !append_nil_r. unfold line.
    now normalize_append.
  - rewrite (install_nul_character P st Ha). split; [reflexivity|].
    exists "", "", "". cbn. rewrite !append_nil_r. unfold line.
    now normalize_append.
  - destruct (Z.eq_dec rc 0) as [-> | Hrc].
    + rewrite (install_exit_zero P st out err Ha). split; [reflexivity|].
      eexists out, err, _. split; [|repeat split].
      cbn. unfold line. now normalize_append.
    + rewrite (install_exit_nonzero P st rc out err Ha Hrc).
      split; [reflexivity|].
      eexists out, err, _. split; [|repeat split].
      apply Z.eqb_neq in Hrc. rewrite Hrc.
      cbn. unfold line. now normalize_append.
  - rewrite (install_not_launched P st le out err Ha). split; [reflexivity|].
    exists "", "", "". cbn. rewrite !append_nil_r. unfold line.
    now normalize_append.
Qed.

(** X6. Only the tokens of [INSTALL_COMMAND] matter to [install]: with a
    command line that splits into the same tokens (other white space
    between them or around them, ASCII or not), it answers the same and
    leaves the same text on both streams. *)
Theorem install_ignores_command_spacing (P : Platform) (st : state)
    (cmd : string) :
  split cmd = split (INSTALL_COMMAND (globals st)) ->
  let st' := with_globals (set_INSTALL_COMMAND cmd (globals st)) st in
  fst (install P st') = fst (install P st)
  /\ stdout (snd (install P st')) = stdout (snd (install P st))
  /\ stderr (snd (install P st')) = stderr (snd (install P st)).
Proof.
  intros H. cbv zeta.
  unfold install, bind, try_except, os_getcwd, subprocess_run, read_globals,
    print, write_stdout, write_stderr, ret, raise.
  cbn [globals with_globals set_INSTALL_COMMAND INSTALL_COMMAND DISPLAY_NAME
       stdout stderr fst snd].
  rewrite H.
  destruct (getcwd P) as [cwd | le]; [|repeat split].
  destruct (split (INSTALL_COMMAND (globals st))) as [|arg args];
    [repeat split|].
  destruct (existsb has_nul (cwd :: arg :: args)); [repeat split|].
  destruct (spawn P (arg :: args) cwd) as [rc | le]; [|repeat split].
  cbn [andb globals stdout stderr]. destruct (negb (rc =? 0)); repeat split.
Qed.

Lemma install_ignores_command_spacing_witness :
  split " pnpm　install " = split (INSTALL_COMMAND default_constants)
  /\ fst (install (noisy_platform 0)
            (with_globals
               (set_INSTALL_COMMAND " pnpm　install " default_constants)
               (initial_state default_constants)))
     = fst (install (noisy_platform 0) (initial_state default_constants)).
Proof.
  split; [reflexivity|].
  exact (proj1 (install_ignores_command_spacing (noisy_platform 0)
                  (initial_state default_constants) " pnpm　install "
                  eq_refl)).
Defined.

(** ** The tokens of a command line *)

Lemma split_from_space (cur : option string) (s : string) (n : nat) :
  space_width s = S n ->
  split_from cur s = (flush cur ++ split_from None (drop (S n) s))%list.
Proof.
  destruct s as [|a [|b [|c s3]]]; cbn [space_width split_from];
    try discriminate;
    destruct (ascii_space a); try discriminate;
    try (intros [= <-]; reflexivity);
    destruct (space2 a b); try discriminate;
    try (intros [= <-]; reflexivity);
    destruct (space3 a b c); try discriminate;
    intros [= <-]; reflexivity.
Qed.

Lemma split_from_byte (cur : option string) (a : ascii) (s1 : string) :
  space_width (String a s1) = 0%nat ->
  split_from cur (String a s1) = split_from (push cur a) s1.
Proof.
  destruct s1 as [|b [|c s3]]; cbn [space_width split_from];
    destruct (ascii_space a); try discriminate; try reflexivity;
    destruct (space2 a b); try discriminate; try reflexivity;
    destruct (space3 a b c); try discriminate; reflexivity.
Qed.

(** What starts no white space character with more bytes after it starts
    none with fewer. *)
Lemma space_width_prefix (u v : string) :
  space_width (u ++ v) = 0%nat -> space_width u = 0%nat.
Proof.
  destruct u as [|a [|b [|c u3]]]; cbn [append space_width];
    try reflexivity;
    destruct (ascii_space a); try discriminate; try reflexivity;
    destruct (space2 a b); try discriminate; try reflexivity;
    destruct (space3 a b c); try discriminate; reflexivity.
Qed.

Lemma space2_blank (a : ascii) : space2 a " " = false.
Proof. unfold space2. now destruct (nat_of_ascii a =? 194)%nat. Qed.

Lemma space3_blank_mid (a c : ascii) : space3 a " " c = false.
Proof.
  unfold space3.
  now destruct (nat_of_ascii a =? 225)%nat, (nat_of_ascii a =? 226)%nat,
    (nat_of_ascii a =? 227)%nat.
Qed.

Lemma space3_blank_last (a b : ascii) : space3 a b " " = false.
Proof.
  unfold space3.
  now destruct (nat_of_ascii a =? 225)%nat, (nat_of_ascii a =? 226)%nat,
    (nat_of_ascii a =? 227)%nat, (nat_of_ascii b =? 154)%nat,
    (nat_of_ascii b =? 128)%nat, (nat_of_ascii b =? 129)%nat.
Qed.

(** A blank after the bytes does not make white space of them. *)
Lemma space_width_blank (v r : string) :
  v <> "" -> space_width v = 0%nat ->
  space_width (v ++ String " " r) = 0%nat.
Proof.
  destruct v as [|a [|b [|c v3]]]; intros Hne H; [now destruct Hne | ..];
    cbn [append space_width] in *;
    destruct (ascii_space a); try discriminate H.
  - rewrite space2_blank. destruct r; [reflexivity|].
    now rewrite space3_blank_mid.
  - destruct (space2 a b); [discriminate H|].
    now rewrite space3_blank_last.
  - exact H.
Qed.

Lemma clear_snoc (w : string) (a : ascii) (s1 : string) :
  clear w (String a s1) = true -> space_width (String a s1) = 0%nat ->
  clear (w ++ String a "") s1 = true.
Proof.
  intros Hw Ha. induction w as [|b w IH].
  - cbn [append clear]. now rewrite Ha.
  - cbn [append clear] in *. apply andb_prop in Hw as [Hb Hw].
    rewrite (IH Hw), andb_true_r. rewrite append_assoc. exact Hb.
Qed.

Lemma clear_prefix (w rest : string) :
  clear w rest = true -> clear w "" = true.
Proof.
  induction w as [|b w IH]; [reflexivity|].
  cbn [clear]. intros H. apply andb_prop in H as [Hb Hw].
  rewrite (IH Hw), andb_true_r. apply Nat.eqb_eq in Hb.
  apply Nat.eqb_eq. rewrite append_nil_r.
  now apply (space_width_prefix (String b w) rest).
Qed.

Lemma clear_blank (t r : string) :
  clear t "" = true -> clear t (String " " r) = true.
Proof.
  induction t as [|b t IH]; [reflexivity|].
  cbn [clear]. intros H. apply andb_prop in H as [Hb Ht].
  rewrite (IH Ht), andb_true_r. apply Nat.eqb_eq in Hb.
  apply Nat.eqb_eq. rewrite append_nil_r in Hb.
  now apply space_width_blank.
Qed.

Lemma is_token_spec (t : string) :
  is_token t = true <-> t <> "" /\ clear t "" = true.
Proof.
  unfold is_token. rewrite andb_true_iff, negb_true_iff.
  now rewrite String.eqb_neq.
Qed.

Lemma length_drop (n : nat) (s : string) :
  (String.length (drop n s) <= String.length s)%nat.
Proof.
  revert s. induction n as [|n IH]; intros [|a s]; cbn; try lia.
  specialize (IH s). lia.
Qed.

Lemma split_from_tokens (n : nat) (s : string) (cur : option string) :
  (String.length s <= n)%nat ->
  match cur with
  | Some w => w <> "" /\ clear w s = true
  | None => True
  end ->
  forallb is_token (split_from cur s) = true.
Proof.
  revert s cur. induction n as [|n IH]; intros s cur Hlen Hcur.
  - destruct s; [|cbn in Hlen; lia].
    destruct cur as [w|]; [|reflexivity].
    cbn. rewrite andb_true_r. now apply is_token_spec.
  - destruct s as [|a s1].
    + destruct cur as [w|]; [|reflexivity].
      cbn. rewrite andb_true_r. now apply is_token_spec.
    + cbn [String.length] in Hlen.
      destruct (space_width (String a s1)) as [|k] eqn:Hwidth.
      * rewrite (split_from_byte cur a s1 Hwidth). apply IH; [lia|].
        destruct cur as [w|]; cbn [push].
        -- destruct Hcur as [_ Hw]. split; [now destruct w|].
           now apply clear_snoc.
        -- split; [discriminate|]. cbn [clear append]. now rewrite Hwidth.
      * rewrite (split_from_space cur _ k Hwidth), forallb_app.
        apply andb_true_intro. split.
        -- destruct cur as [w|]; [|reflexivity].
           cbn. rewrite andb_true_r. apply is_token_spec.
           destruct Hcur as [Hne Hw]. split; [exact Hne|].
           now apply (clear_prefix w (String a s1)).
        -- apply IH; [|exact I]. cbn [drop].
           pose proof (length_drop k s1). lia.
Qed.

Lemma split_from_word (t : string) (cur : option string) (rest : string) :
  clear t rest = true -> t <> "" \/ cur <> None ->
  split_from cur (t ++ rest) = split_from (Some (pending cur ++ t)) rest.
Proof.
  revert cur. induction t as [|a t IH]; intros cur Ht Hne.
  - destruct cur as [w|]; [|now destruct Hne as [H | H]; destruct H].
    cbn [append pending]. now rewrite append_nil_r.
  - cbn [clear] in Ht. apply andb_prop in Ht as [Ha Ht].
    apply Nat.eqb_eq in Ha. cbn [append] in *.
    rewrite (split_from_byte cur a _ Ha).
    rewrite IH; [|exact Ht | right; discriminate].
    destruct cur as [w|]; cbn [push pending]; [|reflexivity].
    now rewrite append_assoc.
Qed.

Lemma split_join (ts : list string) :
  forallb is_token ts = true -> split (join " " ts) = ts.
Proof.
  unfold split. induction ts as [|t ts IH]; intros H; [reflexivity|].
  cbn [forallb] in H. apply andb_prop in H as [Ht Hts].
  apply is_token_spec in Ht as [Hne Hclear].
  destruct ts as [|t2 ts].
  - cbn [join]. rewrite <- (append_nil_r t) at 1.
    rewrite split_from_word by auto. reflexivity.
  - change (join " " (t :: t2 :: ts)) with (t ++ " " ++ join " " (t2 :: ts)).
    cbn [append].
    rewrite split_from_word by (auto using clear_blank).
    cbn [split_from pending append]. change (ascii_space " ") with true.
    cbv iota. cbn [flush app]. now rewrite (IH Hts).
Qed.

(** X7. The arguments [install] hands to the child process, the result of
    [INSTALL_COMMAND.split()], are tokens: none is empty and no white space
    character, ASCII or not, occurs in one. Joining them with single spaces
    and splitting again gives the same tokens, so each command line has a
    normal form with the same effect. *)
Theorem split_gives_tokens (s : string) :
  forallb is_token (split s) = true
  /\ split (join " " (split s)) = split s.
Proof.
  assert (H : forallb is_token (split s) = true)
    by now apply (split_from_tokens (String.length s)).
  split; [exact H | now apply split_join].
Qed.

(** ** The command line, further *)

Lemma consume_help (ks : list (string * arg_kind)) (ns : Args.t)
    (extras : list string) :
  asks_help ks = true -> consume ns extras ks = HelpRequested.
Proof.
  revert ns extras.
  induction ks as [|[arg [[|d]|]] ks IH]; intros ns extras H.
  - discriminate H.
  - reflexivity.
  - cbn [consume]. now apply IH.
  - cbn [consume]. now apply IH.
Qed.

Lemma parse_optional_store (arg : string) (d : dest) :
  parse_optional arg = Some (Opt (StoreTrue d)) ->
  existsb (String.eqb arg) flag_strings = true.
Proof.
  unfold parse_optional. cbn [assoc option_string_actions flag_strings existsb].
  destruct (String.eqb arg "-h"); [discriminate|].
  destruct (String.eqb arg "--help"); [discriminate|].
  destruct (String.eqb arg "--get-config"); [reflexivity|].
  destruct (String.eqb arg "--install"); [reflexivity|].
  destruct (String.eqb arg "--info"); [reflexivity|].
  intros H. exfalso.
  destruct (negb (String.prefix "-" arg)); [discriminate H|].
  match type of H with
  | (if ?b then _ else _) = _ => destruct b; discriminate H
  end.
Qed.

(** Without help option and unknown argument, a command line is made of the
    three flags. *)
Lemma classify_only_flags (argv : list string)
    (ks : list (string * arg_kind)) :
  classify argv = Some ks -> asks_help ks = false -> extras_of ks = [] ->
  only_flags argv = true.
Proof.
  revert ks. induction argv as [|arg argv IH]; intros ks Hks Hhelp Hextras;
    [reflexivity|].
  cbn [classify] in Hks.
  destruct (parse_optional arg) as [k|] eqn:Hk; [|discriminate Hks].
  destruct (classify argv) as [ks'|]; [|discriminate Hks].
  injection Hks as <-.
  destruct k as [[|d]|]; [discriminate Hhelp | | discriminate Hextras].
  cbn [only_flags forallb].
  rewrite (parse_optional_store arg d Hk). now apply (IH ks').
Qed.

(** X8. The answer of [install] does not reach the exit status: run with
    [--install], the script ends with status 0 whenever a child process
    ran, also when it failed and [install] answered [False], and standard
    error then holds what the child wrote there and nothing else; it ends
    with status 1, the traceback on standard error, when no child process
    ran and the exception left [install]. *)
Theorem install_flag_exit_status (P : Platform) (c : Constants) :
  option_map (fun r => (exit_status r, errors r))
    (run_script P c ["--install"])
  = Some match install_attempt P c with
         | Child (Exited rc) out err => (0, err)
         | Child (NotLaunched e) out err =>
             (1, format_traceback P (OSError e))
         | NoDirectory e => (1, format_traceback P (OSError e))
         | NoExecutable => (1, format_traceback P IndexError)
         | NulCharacter => (1, format_traceback P ValueError)
         end.
Proof.
  rewrite (run_script_parsed P c ["--install"] (Args.mk false true false)
             eq_refl).
  unfold dispatch, bind. cbn [Args.get_config Args.install option_map].
  destruct (install_attempt P c) as [le | | | [rc | le] out err] eqn:Ha.
  - now rewrite (install_no_directory P (initial_state c) le Ha).
  - now rewrite (install_no_executable P (initial_state c) Ha).
  - now rewrite (install_nul_character P (initial_state c) Ha).
  - destruct (Z.eq_dec rc 0) as [-> | Hrc].
    + now rewrite (install_exit_zero P (initial_state c) out err Ha).
    + now rewrite (install_exit_nonzero P (initial_state c) rc out err Ha
                     Hrc).
  - now rewrite (install_not_launched P (initial_state c) le out err Ha).
Qed.

Lemma install_never_exits_two (P : Platform) (st : state) :
  exit_status (finish P ((install P ;; ret tt) st)) <> 2.
Proof.
  unfold bind.
  destruct (install_attempt P (globals st)) as [le | | | [rc | le] out err]
    eqn:Ha.
  - now rewrite (install_no_directory P st le Ha).
  - now rewrite (install_no_executable P st Ha).
  - now rewrite (install_nul_character P st Ha).
  - destruct (Z.eq_dec rc 0) as [-> | Hrc].
    + now rewrite (install_exit_zero P st out err Ha).
    + now rewrite (install_exit_nonzero P st rc out err Ha Hrc).
  - now rewrite (install_not_launched P st le out err Ha).
Qed.

(** X9. On the command lines the parser model covers, exit status 2 means a
    usage error and nothing else: a run ends with status 2 exactly when the
    command line holds an argument the parser does not know and no help
    option, and then nothing was written to standard output. A failing
    [install] never shows as status 2. *)
Theorem exit_status_two_is_usage_error (P : Platform) (c : Constants)
    (argv : list string) (r : completed) :
  run_script P c argv = Some r ->
  (exit_status r = 2
   <-> exists ks, classify argv = Some ks /\ asks_help ks = false
                  /\ extras_of ks <> [])
  /\ (exit_status r = 2 -> output r = "").
Proof.
  intros Hrun.
  destruct (classify argv) as [ks|] eqn:Hks;
    [|unfold run_script, main, parse_args, scan in Hrun;
      rewrite Hks in Hrun; discriminate Hrun].
  assert (Hother : exit_status r <> 2 ->
            (asks_help ks = true \/ extras_of ks = []) ->
            (exit_status r = 2
             <-> exists ks', Some ks = Some ks' /\ asks_help ks' = false
                             /\ extras_of ks' <> [])
            /\ (exit_status r = 2 -> output r = "")).
  { intros Hne Hwhy. split; [split|]; try (intros H; now destruct (Hne H)).
    intros (ks' & [= <-] & Hhelp & Hextras).
    destruct Hwhy; [congruence | contradiction]. }
  destruct (asks_help ks) eqn:Hhelp.
  - apply Hother; [|now left].
    unfold run_script, main, parse_args, scan in Hrun.
    rewrite Hks in Hrun. cbn [option_map] in Hrun.
    rewrite (consume_help ks _ [] Hhelp) in Hrun.
    injection Hrun as <-. discriminate.
  - destruct (extras_of ks) as [|x xs] eqn:Hextras.
    + apply Hother; [|now right].
      pose proof (classify_only_flags argv ks Hks Hhelp Hextras) as Hflags.
      rewrite (run_script_parsed P c argv _ (scan_only_flags argv Hflags))
        in Hrun.
      unfold dispatch in Hrun. cbn [Args.get_config Args.install Args.info]
        in Hrun.
      destruct (given "--get-config" argv);
        [injection Hrun as <-; discriminate|].
      destruct (given "--install" argv).
      * injection Hrun as <-. apply install_never_exits_two.
      * destruct (given "--info" argv); injection Hrun as <-; discriminate.
    + assert (Hne : extras_of ks <> []) by (rewrite Hextras; discriminate).
      unfold run_script, main, parse_args, scan in Hrun.
      rewrite Hks in Hrun. cbn [option_map] in Hrun.
      rewrite (consume_unrecognized ks _ [] Hhelp Hne) in Hrun.
      injection Hrun as <-. split; [split|]; try reflexivity.
      intros _. exists ks. split; [reflexivity|]. split; assumption.
Qed.

Lemma exit_status_two_is_usage_error_witness :
  run_script (noisy_platform 1) default_constants ["--install"; "--bogus"]
  = Some (mkCompleted ""
            ("usage: modularflow_config.py [-h] [--get-config] [--install] [--info]"
             ++ line "modularflow_config.py: error: unrecognized arguments: --bogus")
            2)
  /\ exists ks,
       classify ["--install"; "--bogus"] = Some ks /\ asks_help ks = false
       /\ extras_of ks <> [].
Proof.
  split; [reflexivity|].
  exact (proj1 (proj1 (exit_status_two_is_usage_error (noisy_platform 1)
                         default_constants ["--install"; "--bogus"] _
                         eq_refl)) eq_refl).
Defined.

(** X10. On the command lines the parser model covers (full option strings,
    positional arguments, unknown double-dash arguments), a help option
    wins over everything else on the line, wherever it stands: the help
    text is printed, the exit status is 0, and neither a flag given with it
    is acted upon ([install] is not run) nor an unknown argument
    reported. *)
Theorem help_option_wins (P : Platform) (c : Constants) (argv : list string)
    (ks : list (string * arg_kind)) :
  classify argv = Some ks -> asks_help ks = true ->
  run_script P c argv = Some (mkCompleted (format_help P) "" 0).
Proof.
  intros Hks Hhelp. unfold run_script, main, parse_args, scan.
  rewrite Hks. cbn [option_map]. rewrite (consume_help ks _ [] Hhelp).
  reflexivity.
Qed.

Lemma help_option_wins_witness :
  (classify ["--install"; "--bogus"; "-h"; "--get-config"]
   = Some [("--install", Opt (StoreTrue d_install)); ("--bogus", Extra);
           ("-h", Opt HelpAction);
           ("--get-config", Opt (StoreTrue d_get_config))]
   /\ asks_help [("--install", Opt (StoreTrue d_install)); ("--bogus", Extra);
                 ("-h", Opt HelpAction);
                 ("--get-config", Opt (StoreTrue d_get_config))] = true)
  /\ run_script (stub_platform (NotLaunched FileNotFoundError))
       default_constants ["--install"; "--bogus"; "-h"; "--get-config"]
     = Some (mkCompleted
               (format_help (stub_platform (NotLaunched FileNotFoundError)))
               "" 0).
Proof.
  split; [split; reflexivity|].
  exact (help_option_wins (stub_platform (NotLaunched FileNotFoundError))
           default_constants ["--install"; "--bogus"; "-h"; "--get-config"]
           _ eq_refl eq_refl).
Defined.

Lemma existsb_same_elements {A} (f : A -> bool) (l l' : list A) :
  (forall a, In a l <-> In a l') -> existsb f l = existsb f l'.
Proof.
  intros H. apply eq_true_iff_eq. rewrite !existsb_exists.
  split; intros (a & Ha & Hf); exists a; split; auto; now apply H.
Qed.

Lemma forallb_same_elements {A} (f : A -> bool) (l l' : list A) :
  (forall a, In a l <-> In a l') -> forallb f l = forallb f l'.
Proof.
  intros H. apply eq_true_iff_eq. rewrite !forallb_forall.
  split; intros Hf a Ha; apply Hf; now apply H.
Qed.

(** X11. On a command line made of the three flags, neither the order of the
    flags nor their repetition matters: two such command lines with the same
    flags on them give the same run. *)
Theorem flags_order_irrelevant (P : Platform) (c : Constants)
    (argv argv' : list string) :
  only_flags argv = true -> (forall a, In a argv <-> In a argv') ->
  run_script P c argv = run_script P c argv'.
Proof.
  intros Hflags Hsame.
  assert (Hflags' : only_flags argv' = true).
  { unfold only_flags in *.
    now rewrite <- (forallb_same_elements _ argv argv' Hsame). }
  rewrite (run_script_parsed P c argv _ (scan_only_flags argv Hflags)).
  rewrite (run_script_parsed P c argv' _ (scan_only_flags argv' Hflags')).
  unfold given. now rewrite !(existsb_same_elements _ argv argv' Hsame).
Qed.

Lemma flags_order_irrelevant_witness :
  (only_flags ["--info"; "--get-config"; "--info"] = true
   /\ forall a, In a ["--info"; "--get-config"; "--info"]
                <-> In a ["--get-config"; "--info"])
  /\ run_script (stub_platform (Exited 0)) default_constants
       ["--info"; "--get-config"; "--info"]
     = run_script (stub_platform (Exited 0)) default_constants
         ["--get-config"; "--info"].
Proof.
  assert (Hsame : forall a, In a ["--info"; "--get-config"; "--info"]
                            <-> In a ["--get-config"; "--info"])
    by (intros a; cbn; tauto).
  split; [split; [reflexivity | exact Hsame]|].
  exact (flags_order_irrelevant (stub_platform (Exited 0)) default_constants
           ["--info"; "--get-config"; "--info"] ["--get-config"; "--info"]
           eq_refl Hsame).
Defined.

(** X12. The two query branches touch nothing outside the constants: when
    the flags select [--get-config], or select [--info], the run is the same
    on every platform, so no child process is started and no text of the
    platform is printed. *)
Theorem queries_ignore_platform (P P' : Platform) (c : Constants)
    (argv : list string) :
  only_flags argv = true ->
  given "--get-config" argv = true
  \/ (given "--install" argv = false /\ given "--info" argv = true) ->
  run_script P c argv = run_script P' c argv.
Proof.
  intros Hflags Hquery.
  rewrite (run_script_parsed P c argv _ (scan_only_flags argv Hflags)).
  rewrite (run_script_parsed P' c argv _ (scan_only_flags argv Hflags)).
  destruct Hquery as [-> | [-> ->]]; [reflexivity|].
  destruct (given "--get-config" argv); reflexivity.
Qed.

Lemma queries_ignore_platform_witness :
  (only_flags ["--info"] = true
   /\ (given "--get-config" ["--info"] = true
       \/ (given "--install" ["--info"] = false
           /\ given "--info" ["--info"] = true)))
  /\ run_script (stub_platform (Exited 0)) default_constants ["--info"]
     = run_script (stub_platform (NotLaunched PermissionError))
         default_constants ["--info"].
Proof.
  assert (Hq : given "--get-config" ["--info"] = true
               \/ (given "--install" ["--info"] = false
                   /\ given "--info" ["--info"] = true))
    by (right; split; reflexivity).
  split; [split; [reflexivity | exact Hq]|].
  exact (queries_ignore_platform (stub_platform (Exited 0))
           (stub_platform (NotLaunched PermissionError)) default_constants
           ["--info"] eq_refl Hq).
Defined.

(** ** The configuration document *)





Lemma escape_plain_char (a : ascii) :
  plain_char a = true -> escape_char a = String a "".
Proof.
  destruct a as [[] [] [] [] [] [] [] []]; intros H; try discriminate H;
    reflexivity.
Qed.

Lemma escape_other_char (a : ascii) :
  plain_char a = false ->
  exists b t, escape_char a = String backslash (String b t).
Proof.
  destruct a as [[] [] [] [] [] [] [] []]; intros H; try discriminate H;
    eexists; eexists; reflexivity.
Qed.

Lemma length_escape (s : string) :
  (String.length s <= String.length (escape s))%nat.
Proof.
  induction s as [|a s IH]; [reflexivity|].
  cbn [escape]. rewrite length_append. cbn [String.length].
  assert (1 <= String.length (escape_char a))%nat; [|lia].
  destruct (plain_char a) eqn:Ha.
  - now rewrite (escape_plain_char a Ha).
  - destruct (escape_other_char a Ha) as (b & t & ->). cbn. lia.
Qed.

Lemma escape_fixed (s : string) : escape s = s <-> all_plain s = true.
Proof.
  induction s as [|a s IH]; [now split|].
  cbn [escape all_plain]. destruct (plain_char a) eqn:Ha.
  - rewrite (escape_plain_char a Ha). cbn [append andb]. rewrite <- IH.
    split; [now intros [= ->] | now intros ->].
  - cbn [andb]. split; [|discriminate].
    destruct (escape_other_char a Ha) as (b & t & ->).
    cbn [append]. intros [= _ Hs]. exfalso.
    pose proof (length_escape s) as Hlen.
    apply (f_equal String.length) in Hs.
    cbn [String.length] in Hs. rewrite length_append in Hs. lia.
Qed.

(** X15. With [ensure_ascii=False], a string is printed as it is between
    two quotation marks exactly when it holds no quotation mark, no
    backslash and no control character; non-ASCII text, as the Chinese
    description of the project, is among the strings kept as they are. *)
Theorem plain_strings_verbatim (s : string) :
  (encode_basestring s = String dquote (s ++ String dquote "")
   <-> all_plain s = true)
  /\ encode_basestring "基于Next.js的AI智能助手应用"
     = String dquote ("基于Next.js的AI智能助手应用" ++ String dquote "").
Proof.
  split; [|reflexivity].
  rewrite <- escape_fixed. unfold encode_basestring. split.
  - intros [= H]. now apply append_inv_tail in H.
  - now intros ->.
Qed.

Lemma dict_get_in (d : list (string * pyval)) (k : string) (v : pyval) :
  distinct (map fst d) = true -> In (k, v) d -> dict_get k d = Some v.
Proof.
  induction d as [|[k' v'] d IH]; intros Hd Hin; [contradiction|].
  cbn [map fst distinct] in Hd. apply andb_prop in Hd as [Hk' Hd].
  cbn [dict_get]. destruct Hin as [[= -> ->] | Hin].
  - now rewrite String.eqb_refl.
  - destruct (String.eqb_spec k k') as [-> | _]; [|now apply IH].
    exfalso. apply negb_true_iff in Hk'.
    assert (Hex : existsb (String.eqb k') (map fst d) = true).
    { apply existsb_exists. exists k'. split; [|apply String.eqb_refl].
      now apply (in_map fst d (k', v)). }
    congruence.
Qed.

(** X16. No dict of the configuration document has a key twice, at any
    depth and whatever the constants are; so every field written in a
    section is the field a lookup by its key finds. *)
Theorem document_keys_unique (c : Constants) :
  unique_keys (config_document c) = true
  /\ forall section d k v,
       getitem (config_document c) section = Some (PyDict d) ->
       In (k, v) d -> dict_get k d = Some v.
Proof.
  split; [reflexivity|].
  intros section d k v Hsec Hin. apply dict_get_in; [|exact Hin].
  cbn [getitem config_document dict_get] in Hsec.
  repeat match type of Hsec with
         | (if ?b then _ else _) = _ =>
             destruct b; [injection Hsec as <-; reflexivity|]
         end.
  discriminate Hsec.
Qed.

Lemma document_keys_unique_witness :
  (getitem (config_document default_constants) "runtime"
   = Some (get_runtime_config default_constants)
   /\ In ("port", PyInt 3002)
        [("port", PyInt 3002); ("install_command", PyStr "pnpm install");
         ("dev_command", PyStr "pnpm run dev");
         ("build_command", PyStr "pnpm run build");
         ("test_command", PyStr "pnpm test");
         ("lint_command", PyStr "pnpm run lint")])
  /\ getitem (get_runtime_config default_constants) "port"
     = Some (PyInt 3002).
Proof.
  assert (Hin : In ("port", PyInt 3002)
                  [("port", PyInt 3002); ("install_command", PyStr "pnpm install");
                   ("dev_command", PyStr "pnpm run dev");
                   ("build_command", PyStr "pnpm run build");
                   ("test_command", PyStr "pnpm test");
                   ("lint_command", PyStr "pnpm run lint")])
    by (left; reflexivity).
  split; [split; [reflexivity | exact Hin]|].
  exact (proj2 (document_keys_unique default_constants) "runtime" _ "port"
           (PyInt 3002) eq_refl Hin).
Defined.

(** X17. [--info] never misses a key and reports what [--get-config]
    documents: its three lines show the [display_name], [name] and [type]
    fields of the [project] section and the [port] field of the [runtime]
    section, the exit status is 0 and standard error stays empty. *)
Theorem info_reports_document_fields (P : Platform) (c : Constants) :
  exists display_name name type port,
    getitem2 (config_document c) "project" "display_name"
    = Some (PyStr display_name)
    /\ getitem2 (config_document c) "project" "name" = Some (PyStr name)
    /\ getitem2 (config_document c) "project" "type" = Some (PyStr type)
    /\ getitem2 (config_document c) "runtime" "port" = Some (PyInt port)
    /\ run_script P c ["--info"]
       = Some (mkCompleted
                 (line ("项目: " ++ display_name ++ " (" ++ name ++ ")")
                  ++ line ("类型: " ++ type)
                  ++ line ("端口: " ++ str_int port)) "" 0).
Proof.
  exists (DISPLAY_NAME c), (PROJECT_NAME c), (PROJECT_TYPE c),
    (FRONTEND_PORT c).
  repeat (split; [reflexivity|]).
  rewrite (run_script_parsed P c ["--info"] (Args.mk false false true)
             eq_refl).
  cbv [finish bind ret dispatch call invoke project_info_method read_globals subscript print
       write_stdout initial_state globals stdout stderr format
       Args.get_config Args.install Args.info].
  cbn. unfold line. now normalize_append.
Qed.

Example split_unicode_spaces :
  split "pnpm run　dev " = ["pnpm"; "run"; "dev"].
Proof. reflexivity. Qed.

Example install_blank_command :
  fst (install (stub_platform (Exited 0))
         (initial_state (set_INSTALL_COMMAND "   " default_constants)))
  = Raised IndexError.
Proof. reflexivity. Qed.

Example install_noisy_failure :
  run_script (noisy_platform 1) default_constants ["--install"]
  = Some (mkCompleted
            (line "🚀 安装 Manosaba AI..." ++ line "Lockfile is up to date"
             ++ line "❌ 安装失败: exit status 1")
            (line "WARN deprecated package") 0).
Proof. reflexivity. Qed.

Example api_config_beyond_limit :
  ndigits (10 ^ 4300) = 4301%nat
  /\ fst (invoke 4300 (stub_platform (Exited 0)) m_get_env_config
            (initial_state (set_WEBSOCKET_PORT (- 10 ^ 4300) default_constants)))
     = Raised ValueError.
Proof. split; vm_compute; reflexivity. Qed.
